(** * Deliver client connection and channel-config resource helpers

    A shallow embedding of

      - [pkg/fab/events/deliverclient/connection/connection.go]
        ([deliverStream], [Send], [Receive], [createSignedEnvelope]) and
      - the [resource] package ([CreateConfigSignature],
        [ExtractChannelConfig]),

    followed by the properties established about them.

    Go values are modelled as follows.  A [[]byte] is a [list byte]
    (the nil slice is [[]]).  A call that returns [(T, error)] is a
    computation in the monad [M], whose outcomes are a returned value, a
    returned [error], or a panic; the monad also records, in order, the
    calls made to the collaborators (signing manager, stream, event
    channel).  Protocol-buffer encoding, the signer, the nonce source and
    the gRPC stream are collaborators: they are parameters of the
    development. *)

From Stdlib Require Import List String Ascii ZArith NArith Lia Bool.
From Stdlib Require Import Strings.Byte.
Import ListNotations.
Local Open Scope string_scope.
Local Open Scope list_scope.

(** ** Bytes and errors *)

Definition bytes := list byte.

(** Go [error] values.  [io.EOF] is a sentinel compared by identity;
    [errors.Wrap] and [errors.WithMessage] keep the cause and add a
    message. *)
Inductive error : Type :=
| ErrNew (msg : string)
| ErrEOF
| ErrWrap (cause : error) (msg : string)
| ErrWithMessage (cause : error) (msg : string).

Fixpoint error_eqb (a b : error) : bool :=
  match a, b with
  | ErrNew m, ErrNew n => String.eqb m n
  | ErrEOF, ErrEOF => true
  | ErrWrap c m, ErrWrap d n => error_eqb c d && String.eqb m n
  | ErrWithMessage c m, ErrWithMessage d n => error_eqb c d && String.eqb m n
  | _, _ => false
  end.

(** [err.Error()]: the message printed for an error. *)
Fixpoint Error (e : error) : string :=
  match e with
  | ErrNew m => m
  | ErrEOF => "EOF"
  | ErrWrap c m => m ++ ": " ++ Error c
  | ErrWithMessage c m => m ++ ": " ++ Error c
  end.

(** The result of a collaborator call [(T, error)]. *)
Inductive res (A : Type) : Type :=
| Ok (a : A)
| Err (e : error).
Arguments Ok {A} a.
Arguments Err {A} e.

(** ** Protocol messages (fields as in the [common], [orderer] and
    [peer] schemas) *)

Inductive HeaderType : Type :=
| HeaderType_MESSAGE
| HeaderType_CONFIG
| HeaderType_CONFIG_UPDATE
| HeaderType_ENDORSER_TRANSACTION
| HeaderType_ORDERER_TRANSACTION
| HeaderType_DELIVER_SEEK_INFO
| HeaderType_CHAINCODE_PACKAGE.

Definition HeaderType_value (t : HeaderType) : Z :=
  match t with
  | HeaderType_MESSAGE => 0
  | HeaderType_CONFIG => 1
  | HeaderType_CONFIG_UPDATE => 2
  | HeaderType_ENDORSER_TRANSACTION => 3
  | HeaderType_ORDERER_TRANSACTION => 4
  | HeaderType_DELIVER_SEEK_INFO => 5
  | HeaderType_CHAINCODE_PACKAGE => 6
  end%Z.

Record Timestamp : Type := { Seconds : Z; Nanos : Z }.

Record ChannelHeader : Type := {
  Type_ : Z;                       (* int32 *)
  Version : Z;                     (* int32 *)
  Timestamp_ : option Timestamp;
  ChannelId : string;
  TxId : string;
  Epoch : Z;                       (* uint64 *)
  Extension : bytes;
  TlsCertHash : bytes
}.

Record SignatureHeader : Type := { Creator : bytes; Nonce : bytes }.

Record Header : Type := {
  Header_ChannelHeader : bytes;
  Header_SignatureHeader : bytes
}.

Record Payload : Type := { Payload_Header : option Header; Data : bytes }.

Record Envelope : Type := { Envelope_Payload : bytes; Signature : bytes }.

Record ConfigSignature : Type := {
  ConfigSignature_SignatureHeader : bytes;
  ConfigSignature_Signature : bytes
}.

Record ConfigUpdateEnvelope : Type := {
  ConfigUpdate : bytes;
  Signatures : list ConfigSignature
}.

Inductive SeekPosition : Type :=
| SeekNewest
| SeekOldest
| SeekSpecified (number : Z).

Inductive SeekBehavior : Type := BLOCK_UNTIL_READY | FAIL_IF_NOT_READY.

Record SeekInfo : Type := {
  Start : option SeekPosition;
  Stop : option SeekPosition;
  Behavior : SeekBehavior
}.

(** [pb.DeliverResponse]: opaque to the connection, which only forwards
    it. *)
Inductive DeliverResponse : Type :=
| DeliverResponse_Status (code : Z)
| DeliverResponse_Block (block : bytes)
| DeliverResponse_FilteredBlock (block : bytes).

(** ** Collaborators *)

(** [proto.Marshal] / [proto.Unmarshal] for one message type. *)
Class Proto (A : Type) : Type := {
  Marshal : A -> res bytes;
  Unmarshal : bytes -> res A
}.

(** The identity context of a connection ([c.Context()] / [ctx]). *)
Record IdentityContext : Type := {
  Key : Type;
  Identity : res bytes;
  PrivateKey : Key;
  Sign : bytes -> Key -> res bytes
}.

(** What the process-wide collaborators answer during one call:
    [crypto.GetRandomNonce()] and the clock read by
    [utils.MakeChannelHeader]. *)
Record World : Type := {
  GetRandomNonce : res bytes;
  Now : Z
}.

(** A stream that satisfies the [deliverStream] interface; [Stream_Send]
    is the answer of its [Send] method. *)
Record DeliverStreamImpl : Type := {
  Stream_Send : Envelope -> option error
}.

(** The value returned by [c.Stream()]: nil, a stream implementing
    [deliverStream], or a [grpc.ClientStream] of some other dynamic
    type. *)
Inductive StreamHandle : Type :=
| StreamNil
| StreamDeliver (s : DeliverStreamImpl)
| StreamOther (typeName : string).

(** [comm.GRPCConnection] as one call sees it. *)
Record DeliverConnection : Type := {
  ChannelID : string;
  TLSCertHash : bytes;
  Closed : bool;
  Stream : StreamHandle; Context : IdentityContext
}.

(** ** Events, effects and the monad *)

(** What [Receive] puts on [eventch]: a received message (the pointer
    may be nil) or [clientdisp.NewDisconnectedEvent(err)]. *)
Inductive event : Type :=
| EvResponse (msg : option DeliverResponse)
| EvDisconnected (err : error).

(** Calls made to the collaborators, in program order. *)
Inductive effect : Type :=
| ESign (message : bytes)
| EStreamSend (env : Envelope)
| EStreamRecv
| EChanSend (ev : event).

Inductive outcome (A : Type) : Type :=
| Ret (a : A)
| Fail (e : error)
| Abort (reason : string).
Arguments Ret {A} a.
Arguments Fail {A} e.
Arguments Abort {A} reason.

Definition M (A : Type) : Type := (outcome A * list effect)%type.

Definition ret {A} (a : A) : M A := (Ret a, []).
Definition fail {A} (e : error) : M A := (Fail e, []).
Definition panic {A} (reason : string) : M A := (Abort reason, []).
Definition emit (e : effect) : M unit := (Ret tt, [e]).

Definition bind {A B} (m : M A) (k : A -> M B) : M B :=
  match m with
  | (Ret a, l) => let (r, l') := k a in (r, l ++ l')
  | (Fail e, l) => (Fail e, l)
  | (Abort p, l) => (Abort p, l)
  end.

(** [x, err := call; if err != nil { return nil, wrap err }]. *)
Definition try {A} (r : res A) (wrap : error -> error) : M A :=
  match r with
  | Ok a => ret a
  | Err e => fail (wrap e)
  end.

Notation "x <- m ;; k" := (bind m (fun x => k))
  (at level 61, m at next level, right associativity).

Definition result {A} (m : M A) : outcome A := fst m.
Definition log {A} (m : M A) : list effect := snd m.

Definition panics {A} (m : M A) : bool :=
  match result m with
  | Abort _ => true
  | _ => false
  end.

(** The byte strings handed to the signing manager, in order. *)
Fixpoint signed_messages (l : list effect) : list bytes :=
  match l with
  | [] => []
  | ESign b :: l' => b :: signed_messages l'
  | _ :: l' => signed_messages l'
  end.

(** The envelopes written to the stream, in order. *)
Fixpoint stream_writes (l : list effect) : list Envelope :=
  match l with
  | [] => []
  | EStreamSend e :: l' => e :: stream_writes l'
  | _ :: l' => stream_writes l'
  end.

(** The events put on the event channel, in order. *)
Fixpoint channel_events (l : list effect) : list event :=
  match l with
  | [] => []
  | EChanSend e :: l' => e :: channel_events l'
  | _ :: l' => channel_events l'
  end.

(** The number of [Recv] calls. *)
Fixpoint stream_reads (l : list effect) : nat :=
  match l with
  | [] => 0
  | EStreamRecv :: l' => S (stream_reads l')
  | _ :: l' => stream_reads l'
  end.

(** ** The program *)

Section Program.

Context {Proto_ChannelHeader : Proto ChannelHeader}
        {Proto_SignatureHeader : Proto SignatureHeader}
        {Proto_Payload : Proto Payload}
        {Proto_Envelope : Proto Envelope}
        {Proto_ConfigUpdateEnvelope : Proto ConfigUpdateEnvelope}.

(** *** Vendored helpers used by the two files *)

(** Modelled from the spec: [utils.MarshalOrPanic] is vendored under
    [third_party] and not among the sources.  It serializes its
    argument and, as its name says, panics when serialization fails. *)
Definition MarshalOrPanic {A} `{Proto A} (pb : A) : M bytes :=
  match Marshal pb with
  | Ok b => ret b
  | Err e => panic (Error e)
  end.

(** Modelled from the spec: [utils.MakeChannelHeader] is vendored and
    not among the sources.  It builds a channel header with the given
    message type, version, channel identifier and epoch, stamped with
    the current time; every other field is left at its zero value. *)
Definition MakeChannelHeader (w : World) (headerType : HeaderType)
    (version : Z) (chainID : string) (epoch : Z) : ChannelHeader :=
  {| Type_ := HeaderType_value headerType;
     Version := version;
     Timestamp_ := Some {| Seconds := Now w; Nanos := 0 |};
     ChannelId := chainID;
     TxId := "";
     Epoch := epoch;
     Extension := [];
     TlsCertHash := [] |}.

(** Modelled from the spec: [utils.MakePayloadHeader] is vendored and
    not among the sources.  The payload header holds the serialized
    channel header and the serialized signature header. *)
Definition MakePayloadHeader (ch : ChannelHeader) (sh : SignatureHeader)
  : M Header :=
  chBytes <- MarshalOrPanic ch ;;
  shBytes <- MarshalOrPanic sh ;;
  ret {| Header_ChannelHeader := chBytes;
         Header_SignatureHeader := shBytes |}.

(** Modelled from the spec: [fcutils.ConcatenateBytes] is vendored and
    not among the sources.  It returns its arguments joined in
    order. *)
Definition ConcatenateBytes (a b : bytes) : bytes := a ++ b.

(** [ctx.SigningManager().Sign(object, ctx.PrivateKey())] followed by
    the caller's [if err != nil { return nil, wrap(err) }]; the call is
    recorded with the bytes it is given. *)
Definition SigningManager_Sign (ctx : IdentityContext) (object : bytes)
    (wrap : error -> error) : M bytes :=
  _ <- emit (ESign object) ;;
  try (Sign ctx object (PrivateKey ctx)) wrap.

(** [payloadChannelHeader.TlsCertHash = hash]. *)
Definition set_TlsCertHash (ch : ChannelHeader) (hash : bytes)
  : ChannelHeader :=
  {| Type_ := Type_ ch;
     Version := Version ch;
     Timestamp_ := Timestamp_ ch;
     ChannelId := ChannelId ch;
     TxId := TxId ch;
     Epoch := Epoch ch;
     Extension := Extension ch;
     TlsCertHash := hash |}.

(** *** connection.go *)

(** [deliverStream], on the value [s] that [c.Stream()] returns (the
    two reads of [c.Stream()] in its body see the same handle). *)
Definition deliverStream (s : StreamHandle) : M (option DeliverStreamImpl) :=
  match s with
  | StreamNil => ret None
  | StreamDeliver stream => ret (Some stream)
  | StreamOther typeName =>
      panic ("invalid DeliverStream type " ++ typeName)
  end.

Definition createSignedEnvelope {A} `{Proto A}
    (c : DeliverConnection) (w : World) (msg : A) : M Envelope :=
  let msgVersion := 0%Z in
  let epoch := 0%Z in
  let payloadChannelHeader :=
    MakeChannelHeader w HeaderType_DELIVER_SEEK_INFO msgVersion
                      (ChannelID c) epoch in
  let payloadChannelHeader :=
    set_TlsCertHash payloadChannelHeader (TLSCertHash c) in
  data <- try (Marshal msg) (fun err => err) ;;
  identity <- try (Identity (Context c)) (fun err => err) ;;
  nonce <- try (GetRandomNonce w) (fun err => err) ;;
  let payloadSignatureHeader := {| Creator := identity; Nonce := nonce |} in
  header <- MakePayloadHeader payloadChannelHeader payloadSignatureHeader ;;
  paylBytes <- MarshalOrPanic {| Payload_Header := Some header;
                                 Data := data |} ;;
  signature <- SigningManager_Sign (Context c) data (fun err => err) ;;
  ret {| Envelope_Payload := paylBytes; Signature := signature |}.

(** [Send]; a returned non-nil error is [Fail]. *)
Definition Send `{Proto SeekInfo}
    (c : DeliverConnection) (w : World) (seekInfo : SeekInfo) : M unit :=
  if Closed c then fail (ErrNew "connection is closed")
  else
    env <- createSignedEnvelope c w seekInfo ;;
    stream <- deliverStream (Stream c) ;;
    match stream with
    | None => panic "invalid memory address or nil pointer dereference"
    | Some s =>
        _ <- emit (EStreamSend env) ;;
        match Stream_Send s env with
        | None => ret tt
        | Some err => fail err
        end
    end.

(** What one iteration of the loop in [Receive] observes of its
    environment: the value of [c.Stream()] at the top of the iteration,
    the answer of [stream.Recv()], and the value of [c.Closed()] read
    after [Recv] has returned. *)
Record Observation : Type := {
  obs_Stream : StreamHandle;
  obs_in : option DeliverResponse;
  obs_err : option error;
  obs_Closed : bool
}.

(** How a run of [Receive] ends: the function returned, or the loop is
    still waiting for its next observation. *)
Inductive loop_state : Type := Exited | Running.

(** [Receive], run against the observations of its successive
    iterations.  The consumer is assumed to take every event put on
    [eventch]. *)
Fixpoint Receive (script : list Observation) : M loop_state :=
  match script with
  | [] => ret Running
  | o :: rest =>
      stream <- deliverStream (obs_Stream o) ;;
      match stream with
      | None => ret Exited
      | Some _ =>
          _ <- emit EStreamRecv ;;
          if obs_Closed o then ret Exited
          else
            match obs_err o with
            | Some ErrEOF => ret Exited
            | Some err =>
                _ <- emit (EChanSend (EvDisconnected err)) ;;
                ret Exited
            | None =>
                _ <- emit (EChanSend (EvResponse (obs_in o))) ;;
                Receive rest
            end
      end
  end.

(** *** package resource *)

Definition CreateConfigSignature
    (ctx : IdentityContext) (w : World) (config : bytes)
  : M ConfigSignature :=
  creator <- try (Identity ctx)
    (fun err => ErrWithMessage err "failed to get user context's identity") ;;
  nonce <- try (GetRandomNonce w)
    (fun err => ErrWithMessage err "nonce creation failed") ;;
  let signatureHeader := {| Creator := creator; Nonce := nonce |} in
  signatureHeaderBytes <- try (Marshal signatureHeader)
    (fun err => ErrWrap err "marshal signatureHeader failed") ;;
  let signingBytes := ConcatenateBytes signatureHeaderBytes config in
  signature <- SigningManager_Sign ctx signingBytes
    (fun err => ErrWithMessage err "signing of channel config failed") ;;
  ret {| ConfigSignature_SignatureHeader := signatureHeaderBytes;
         ConfigSignature_Signature := signature |}.

Definition ExtractChannelConfig (configEnvelope : bytes) : M bytes :=
  envelope <- try (Unmarshal (A := Envelope) configEnvelope)
    (fun err => ErrWrap err "unmarshal config envelope failed") ;;
  payload <- try (Unmarshal (A := Payload) (Envelope_Payload envelope))
    (fun err => ErrWrap err "unmarshal envelope payload failed") ;;
  configUpdateEnvelope <-
    try (Unmarshal (A := ConfigUpdateEnvelope) (Data payload))
    (fun err => ErrWrap err "unmarshal config update envelope") ;;
  ret (ConfigUpdate configUpdateEnvelope).

End Program.

(** *** connection.go: stream providers and [New] *)

(** [pb.DeliverClient]: its two streaming calls, each answering with
    the pair (stream, error) of a Go call; the stream is an interface
    value and may be nil, also when the error is nil. *)
Record DeliverClient : Type := {
  Client_Deliver : option DeliverStreamImpl * option error;
  Client_DeliverFiltered : option DeliverStreamImpl * option error
}.

(** [StreamProvider]: returns [(deliverStream, error)]. *)
Definition StreamProvider : Type :=
  DeliverClient -> option DeliverStreamImpl * option error.

Definition Deliver : StreamProvider := fun client => Client_Deliver client.

Definition DeliverFiltered : StreamProvider :=
  fun client => Client_DeliverFiltered client.

(** A [deliverStream] interface value returned as a
    [grpc.ClientStream]: nil stays nil. *)
Definition as_ClientStream (stream : option DeliverStreamImpl)
  : StreamHandle :=
  match stream with
  | Some s => StreamDeliver s
  | None => StreamNil
  end.

Section Constructor.

(** [*grpc.ClientConn] and the variadic [options.Opt], opaque here;
    [pb.NewDeliverClient]; and [comm.NewConnection], which is given the
    client context, the channel identifier, a function that opens the
    [grpc.ClientStream] on a dialled connection, the URL and the
    options. *)
Variables (ClientConn Opts : Type).
Variable NewDeliverClient : ClientConn -> DeliverClient.
Variable NewConnection :
  IdentityContext -> string ->
  (ClientConn -> StreamHandle * option error) -> string ->
  Opts -> res DeliverConnection.

(** The function literal that [New] passes to [comm.NewConnection]: it
    returns what the provider returns, stream and error alike, without
    looking at either. *)
Definition New_stream (streamProvider : StreamProvider) (grpcconn : ClientConn)
  : StreamHandle * option error :=
  let (stream, err) := streamProvider (NewDeliverClient grpcconn) in
  (as_ClientStream stream, err).

(** [New]; [DeliverConnection] embeds the [comm.GRPCConnection] that
    [comm.NewConnection] returns. *)
Definition New (ctx : IdentityContext) (channelID : string)
    (streamProvider : StreamProvider) (url : string) (opts : Opts)
  : M DeliverConnection :=
  if String.eqb channelID "" then fail (ErrNew "channel ID not provided")
  else
    connect <- try (NewConnection ctx channelID (New_stream streamProvider)
                                  url opts)
                   (fun err => err) ;;
    ret connect.

End Constructor.

Arguments New_stream {ClientConn} NewDeliverClient streamProvider grpcconn.
Arguments New {ClientConn Opts} NewDeliverClient NewConnection ctx channelID
  streamProvider url opts.

(** ** A reference protocol-buffer encoding

    The wire format of the messages above (proto3: varint tags,
    length-delimited byte strings and sub-messages, zero-valued fields
    omitted, unknown fields skipped).  It instantiates the [Proto]
    parameters wherever a property is evaluated on concrete bytes. *)

Module Wire.

Definition byte_of_N (n : N) : byte :=
  match Byte.of_N n with
  | Some b => b
  | None => x00
  end.

Fixpoint encode_varint_fuel (fuel : nat) (n : N) : bytes :=
  match fuel with
  | O => []
  | S fuel' =>
      if (n <? 128)%N then [byte_of_N n]
      else byte_of_N (n mod 128 + 128) :: encode_varint_fuel fuel' (n / 128)
  end.

(** Base-128 digits, least significant first; the fuel covers every
    digit of [n].  Lengths being unbounded naturals here, varints are
    not limited to the ten bytes of a 64-bit value. *)
Definition encode_varint (n : N) : bytes :=
  encode_varint_fuel (S (N.to_nat (N.log2 n))) n.

Fixpoint decode_varint_fuel (fuel : nat) (shift acc : N) (bs : bytes)
  : option (N * bytes) :=
  match fuel, bs with
  | S fuel', b :: rest =>
      let v := Byte.to_N b in
      if (v <? 128)%N then Some (acc + N.shiftl v shift, rest)%N
      else decode_varint_fuel fuel' (shift + 7)%N
                              (acc + N.shiftl (v - 128) shift)%N rest
  | _, _ => None
  end.

Definition decode_varint (bs : bytes) : option (N * bytes) :=
  decode_varint_fuel (List.length bs) 0%N 0%N bs.

Definition len (b : bytes) : N := N.of_nat (List.length b).

Definition tag (field wiretype : N) : bytes :=
  encode_varint (field * 8 + wiretype).

Definition put_varint (field v : N) : bytes :=
  if (v =? 0)%N then [] else tag field 0 ++ encode_varint v.

Definition put_delimited (field : N) (b : bytes) : bytes :=
  tag field 2 ++ encode_varint (len b) ++ b.

Definition put_bytes (field : N) (b : bytes) : bytes :=
  match b with
  | [] => []
  | _ => put_delimited field b
  end.

Definition put_message (field : N) (m : option bytes) : bytes :=
  match m with
  | None => []
  | Some b => put_delimited field b
  end.

(** Signed and unsigned integers travel as 64-bit two's complement. *)
Definition N_of_int (z : Z) : N := Z.to_N (z mod 2 ^ 64).
Definition int32_of_N (n : N) : Z :=
  let z := (Z.of_N n mod 2 ^ 32)%Z in
  if (z <? 2 ^ 31)%Z then z else (z - 2 ^ 32)%Z.
Definition int64_of_N (n : N) : Z :=
  let z := (Z.of_N n mod 2 ^ 64)%Z in
  if (z <? 2 ^ 63)%Z then z else (z - 2 ^ 64)%Z.
Definition uint64_of_N (n : N) : Z := (Z.of_N n mod 2 ^ 64)%Z.

Inductive wire_value : Type :=
| WVarint (n : N)
| WFixed64 (b : bytes)
| WDelimited (b : bytes)
| WFixed32 (b : bytes).

Definition take (n : nat) (bs : bytes) : option (bytes * bytes) :=
  if (n <=? List.length bs)%nat then Some (firstn n bs, skipn n bs) else None.

Definition decode_value (wiretype : N) (bs : bytes)
  : option (wire_value * bytes) :=
  match wiretype with
  | 0%N => match decode_varint bs with
           | Some (v, rest) => Some (WVarint v, rest)
           | None => None
           end
  | 1%N => match take 8 bs with
           | Some (b, rest) => Some (WFixed64 b, rest)
           | None => None
           end
  | 2%N => match decode_varint bs with
           | Some (n, rest) =>
               match take (N.to_nat n) rest with
               | Some (b, rest') => Some (WDelimited b, rest')
               | None => None
               end
           | None => None
           end
  | 5%N => match take 4 bs with
           | Some (b, rest) => Some (WFixed32 b, rest)
           | None => None
           end
  | _ => None
  end.

(** The fields of a message, in the order they appear; every field
    takes at least one byte, so the length of the input is fuel
    enough. *)
Fixpoint parse_fields (fuel : nat) (bs : bytes)
  : option (list (N * wire_value)) :=
  match bs with
  | [] => Some []
  | _ =>
      match fuel with
      | O => None
      | S fuel' =>
          match decode_varint bs with
          | None => None
          | Some (t, rest) =>
              if (t / 8 =? 0)%N then None
              else
                match decode_value (t mod 8) rest with
                | None => None
                | Some (v, rest') =>
                    match parse_fields fuel' rest' with
                    | None => None
                    | Some fs => Some ((t / 8, v)%N :: fs)
                    end
                end
          end
      end
  end.

Definition parse (bs : bytes) : res (list (N * wire_value)) :=
  match parse_fields (List.length bs) bs with
  | Some fs => Ok fs
  | None => Err (ErrNew "proto: cannot parse invalid wire-format data")
  end.

(** The last occurrence of a scalar field wins; an occurrence with
    another wire type is an unknown field. *)
Fixpoint get_delimited (field : N) (fs : list (N * wire_value))
    (default : bytes) : bytes :=
  match fs with
  | [] => default
  | (f, WDelimited b) :: fs' =>
      get_delimited field fs' (if (f =? field)%N then b else default)
  | _ :: fs' => get_delimited field fs' default
  end.

Fixpoint get_varint (field : N) (fs : list (N * wire_value)) (default : N)
  : N :=
  match fs with
  | [] => default
  | (f, WVarint v) :: fs' =>
      get_varint field fs' (if (f =? field)%N then v else default)
  | _ :: fs' => get_varint field fs' default
  end.

(** Every occurrence of a length-delimited field, in order. *)
Fixpoint get_all (field : N) (fs : list (N * wire_value)) : list bytes :=
  match fs with
  | [] => []
  | (f, WDelimited b) :: fs' =>
      if (f =? field)%N then b :: get_all field fs' else get_all field fs'
  | _ :: fs' => get_all field fs'
  end.

(** Occurrences of a sub-message field merge: the sub-message is
    parsed from their concatenation.  [None] when the field is
    absent. *)
Definition get_message (field : N) (fs : list (N * wire_value))
  : option bytes :=
  match get_all field fs with
  | [] => None
  | bs => Some (List.concat bs)
  end.

Definition unmarshal_with {A} (decode : list (N * wire_value) -> res A)
    (bs : bytes) : res A :=
  match parse bs with
  | Ok fs => decode fs
  | Err e => Err e
  end.

(** *** [common.Envelope], [common.Header], [common.SignatureHeader],
    [common.ConfigSignature] *)

Definition marshal_Envelope (e : Envelope) : bytes :=
  put_bytes 1 (Envelope_Payload e) ++ put_bytes 2 (Signature e).

Definition decode_Envelope (fs : list (N * wire_value)) : res Envelope :=
  Ok {| Envelope_Payload := get_delimited 1 fs [];
        Signature := get_delimited 2 fs [] |}.

Definition marshal_Header (h : Header) : bytes :=
  put_bytes 1 (Header_ChannelHeader h)
  ++ put_bytes 2 (Header_SignatureHeader h).

Definition decode_Header (fs : list (N * wire_value)) : res Header :=
  Ok {| Header_ChannelHeader := get_delimited 1 fs [];
        Header_SignatureHeader := get_delimited 2 fs [] |}.

Definition marshal_SignatureHeader (h : SignatureHeader) : bytes :=
  put_bytes 1 (Creator h) ++ put_bytes 2 (Nonce h).

Definition decode_SignatureHeader (fs : list (N * wire_value))
  : res SignatureHeader :=
  Ok {| Creator := get_delimited 1 fs []; Nonce := get_delimited 2 fs [] |}.

Definition marshal_ConfigSignature (s : ConfigSignature) : bytes :=
  put_bytes 1 (ConfigSignature_SignatureHeader s)
  ++ put_bytes 2 (ConfigSignature_Signature s).

Definition decode_ConfigSignature (fs : list (N * wire_value))
  : res ConfigSignature :=
  Ok {| ConfigSignature_SignatureHeader := get_delimited 1 fs [];
        ConfigSignature_Signature := get_delimited 2 fs [] |}.

(** *** [common.Payload] *)

Definition marshal_Payload (p : Payload) : bytes :=
  put_message 1 (option_map marshal_Header (Payload_Header p))
  ++ put_bytes 2 (Data p).

Definition decode_Payload (fs : list (N * wire_value)) : res Payload :=
  match get_message 1 fs with
  | None => Ok {| Payload_Header := None; Data := get_delimited 2 fs [] |}
  | Some hb =>
      match unmarshal_with decode_Header hb with
      | Ok h => Ok {| Payload_Header := Some h;
                      Data := get_delimited 2 fs [] |}
      | Err e => Err e
      end
  end.

(** *** [common.ConfigUpdateEnvelope] *)

Definition marshal_ConfigUpdateEnvelope (c : ConfigUpdateEnvelope) : bytes :=
  put_bytes 1 (ConfigUpdate c)
  ++ flat_map (fun s => put_delimited 2 (marshal_ConfigSignature s))
              (Signatures c).

Fixpoint decode_all {A} (decode : bytes -> res A) (l : list bytes)
  : res (list A) :=
  match l with
  | [] => Ok []
  | b :: l' =>
      match decode b with
      | Err e => Err e
      | Ok a =>
          match decode_all decode l' with
          | Err e => Err e
          | Ok r => Ok (a :: r)
          end
      end
  end.

Definition decode_ConfigUpdateEnvelope (fs : list (N * wire_value))
  : res ConfigUpdateEnvelope :=
  match decode_all (unmarshal_with decode_ConfigSignature) (get_all 2 fs) with
  | Ok sigs => Ok {| ConfigUpdate := get_delimited 1 fs [];
                     Signatures := sigs |}
  | Err e => Err e
  end.

(** *** [common.ChannelHeader] and [timestamp.Timestamp] *)

Definition marshal_Timestamp (t : Timestamp) : bytes :=
  put_varint 1 (N_of_int (Seconds t)) ++ put_varint 2 (N_of_int (Nanos t)).

Definition decode_Timestamp (fs : list (N * wire_value)) : res Timestamp :=
  Ok {| Seconds := int64_of_N (get_varint 1 fs 0);
        Nanos := int32_of_N (get_varint 2 fs 0) |}.

Definition marshal_ChannelHeader (h : ChannelHeader) : bytes :=
  put_varint 1 (N_of_int (Type_ h))
  ++ put_varint 2 (N_of_int (Version h))
  ++ put_message 3 (option_map marshal_Timestamp (Timestamp_ h))
  ++ put_bytes 4 (list_byte_of_string (ChannelId h))
  ++ put_bytes 5 (list_byte_of_string (TxId h))
  ++ put_varint 6 (N_of_int (Epoch h))
  ++ put_bytes 7 (Extension h)
  ++ put_bytes 8 (TlsCertHash h).

Definition decode_ChannelHeader (fs : list (N * wire_value))
  : res ChannelHeader :=
  let rest (ts : option Timestamp) :=
    {| Type_ := int32_of_N (get_varint 1 fs 0);
       Version := int32_of_N (get_varint 2 fs 0);
       Timestamp_ := ts;
       ChannelId := string_of_list_byte (get_delimited 4 fs []);
       TxId := string_of_list_byte (get_delimited 5 fs []);
       Epoch := uint64_of_N (get_varint 6 fs 0);
       Extension := get_delimited 7 fs [];
       TlsCertHash := get_delimited 8 fs [] |} in
  match get_message 3 fs with
  | None => Ok (rest None)
  | Some tb =>
      match unmarshal_with decode_Timestamp tb with
      | Ok t => Ok (rest (Some t))
      | Err e => Err e
      end
  end.

(** *** [orderer.SeekInfo] *)

Definition marshal_SeekPosition (p : SeekPosition) : bytes :=
  match p with
  | SeekNewest => put_delimited 1 []
  | SeekOldest => put_delimited 2 []
  | SeekSpecified n => put_delimited 3 (put_varint 1 (N_of_int n))
  end.

Definition SeekBehavior_value (b : SeekBehavior) : N :=
  match b with
  | BLOCK_UNTIL_READY => 0
  | FAIL_IF_NOT_READY => 1
  end.

Definition marshal_SeekInfo (s : SeekInfo) : bytes :=
  put_message 1 (option_map marshal_SeekPosition (Start s))
  ++ put_message 2 (option_map marshal_SeekPosition (Stop s))
  ++ put_varint 3 (SeekBehavior_value (Behavior s)).

(** The last member of the [oneof] present on the wire is the one
    set. *)
Fixpoint decode_SeekPosition_fields (fs : list (N * wire_value))
    (acc : res (option SeekPosition)) : res (option SeekPosition) :=
  match fs with
  | [] => acc
  | (1%N, WDelimited b) :: fs' =>
      match parse b with
      | Ok _ => decode_SeekPosition_fields fs' (Ok (Some SeekNewest))
      | Err e => Err e
      end
  | (2%N, WDelimited b) :: fs' =>
      match parse b with
      | Ok _ => decode_SeekPosition_fields fs' (Ok (Some SeekOldest))
      | Err e => Err e
      end
  | (3%N, WDelimited b) :: fs' =>
      match parse b with
      | Ok sfs =>
          decode_SeekPosition_fields fs'
            (Ok (Some (SeekSpecified (uint64_of_N (get_varint 1 sfs 0)))))
      | Err e => Err e
      end
  | _ :: fs' => decode_SeekPosition_fields fs' acc
  end.

Definition decode_SeekPosition (field : N) (fs : list (N * wire_value))
  : res (option SeekPosition) :=
  match get_message field fs with
  | None => Ok None
  | Some b =>
      match parse b with
      | Ok pfs =>
          match decode_SeekPosition_fields pfs (Ok None) with
          | Ok (Some p) => Ok (Some p)
          | Ok None => Ok (Some SeekNewest)
          | Err e => Err e
          end
      | Err e => Err e
      end
  end.

Definition decode_SeekInfo (fs : list (N * wire_value)) : res SeekInfo :=
  match decode_SeekPosition 1 fs, decode_SeekPosition 2 fs with
  | Ok start, Ok stop =>
      Ok {| Start := start;
            Stop := stop;
            Behavior := if (get_varint 3 fs 0 =? 1)%N
                        then FAIL_IF_NOT_READY else BLOCK_UNTIL_READY |}
  | Err e, _ => Err e
  | _, Err e => Err e
  end.

Definition codec {A} (marshal : A -> bytes)
    (decode : list (N * wire_value) -> res A) : Proto A :=
  {| Marshal := fun a => Ok (marshal a);
     Unmarshal := unmarshal_with decode |}.

Definition Proto_Envelope := codec marshal_Envelope decode_Envelope.
Definition Proto_Payload := codec marshal_Payload decode_Payload.
Definition Proto_SignatureHeader :=
  codec marshal_SignatureHeader decode_SignatureHeader.
Definition Proto_ChannelHeader :=
  codec marshal_ChannelHeader decode_ChannelHeader.
Definition Proto_ConfigUpdateEnvelope :=
  codec marshal_ConfigUpdateEnvelope decode_ConfigUpdateEnvelope.
Definition Proto_SeekInfo := codec marshal_SeekInfo decode_SeekInfo.

(** Length-delimited fields, as a message lists them. *)
Definition encode_fields (l : list (N * bytes)) : bytes :=
  flat_map (fun fb => put_delimited (fst fb) (snd fb)) l.

Definition delimited (l : list (N * bytes)) : list (N * wire_value) :=
  map (fun fb => (fst fb, WDelimited (snd fb))) l.

(** The field list of an optional byte string: nothing when empty. *)
Definition field_bytes (field : N) (b : bytes) : list (N * bytes) :=
  match b with
  | [] => []
  | _ => [(field, b)]
  end.

(** The field list of the repeated [signatures] field. *)
Definition signature_fields (sigs : list ConfigSignature) : list (N * bytes) :=
  map (fun s => (2%N, marshal_ConfigSignature s)) sigs.

End Wire.

(** ** Vocabulary of the properties *)

(** [Unmarshal] undoes [Marshal] at the value [a]. *)
Definition roundtrips {A} `{Proto A} (a : A) : Prop :=
  forall b, Marshal a = Ok b -> Unmarshal b = Ok a.

(** The messages that [ExtractChannelConfig] wraps a failure in, one per
    layer. *)
Definition envelope_layer_message : string :=
  "unmarshal config envelope failed".
Definition payload_layer_message : string :=
  "unmarshal envelope payload failed".
Definition config_update_layer_message : string :=
  "unmarshal config update envelope".

(** The channel header that [createSignedEnvelope] builds for the
    connection [c]. *)
Definition payloadChannelHeader (c : DeliverConnection) (w : World)
  : ChannelHeader :=
  set_TlsCertHash
    (MakeChannelHeader w HeaderType_DELIVER_SEEK_INFO 0 (ChannelID c) 0)
    (TLSCertHash c).

(** Serializing what the envelope builder assembles from [data],
    [creator] and [nonce] fails: at the channel header, or else at the
    signature header, or else at the payload that holds both. *)
Definition built_serialization_fails
    {Proto_ChannelHeader : Proto ChannelHeader}
    {Proto_SignatureHeader : Proto SignatureHeader}
    {Proto_Payload : Proto Payload}
    (c : DeliverConnection) (w : World) (data creator nonce : bytes) : Prop :=
  (exists e, Marshal (payloadChannelHeader c w) = Err e)
  \/ (exists chBytes e,
         Marshal (payloadChannelHeader c w) = Ok chBytes
         /\ Marshal {| Creator := creator; Nonce := nonce |} = Err e)
  \/ (exists chBytes shBytes e,
         Marshal (payloadChannelHeader c w) = Ok chBytes
         /\ Marshal {| Creator := creator; Nonce := nonce |} = Ok shBytes
         /\ Marshal {| Payload_Header :=
                         Some {| Header_ChannelHeader := chBytes;
                                 Header_SignatureHeader := shBytes |};
                       Data := data |} = Err e).

Definition is_deliver (s : StreamHandle) : bool :=
  match s with
  | StreamDeliver _ => true
  | _ => false
  end.

(** An iteration that reads a message and forwards it. *)
Definition forwards (o : Observation) : bool :=
  is_deliver (obs_Stream o)
  && negb (obs_Closed o)
  && match obs_err o with None => true | Some _ => false end.

(** An iteration whose read fails with [e], which is not [io.EOF], on a
    connection that is not closed. *)
Definition reports (o : Observation) (e : error) : Prop :=
  is_deliver (obs_Stream o) = true
  /\ obs_Closed o = false
  /\ obs_err o = Some e
  /\ e <> ErrEOF.

(** The leading iterations of [script] that forward, and the
    observations that follow them. *)
Fixpoint leading_reads (script : list Observation) : list Observation :=
  match script with
  | [] => []
  | o :: rest => if forwards o then o :: leading_reads rest else []
  end.

Fixpoint after_leading_reads (script : list Observation)
  : list Observation :=
  match script with
  | [] => []
  | o :: rest => if forwards o then after_leading_reads rest else script
  end.

(** What the forwarding iterations [pre] do, in order. *)
Definition forwarded (pre : list Observation) : list effect :=
  flat_map (fun o => [EStreamRecv; EChanSend (EvResponse (obs_in o))]) pre.

(** The errors of the disconnected events in a log. *)
Fixpoint disconnected_events (l : list effect) : list error :=
  match l with
  | [] => []
  | EChanSend (EvDisconnected e) :: l' => e :: disconnected_events l'
  | _ :: l' => disconnected_events l'
  end.

(** ** Test doubles

    Concrete collaborators and inputs on which the properties below
    are evaluated. *)

Module Fixture.

#[local] Existing Instance Wire.Proto_Envelope.
#[local] Existing Instance Wire.Proto_Payload.
#[local] Existing Instance Wire.Proto_SignatureHeader.
#[local] Existing Instance Wire.Proto_ChannelHeader.
#[local] Existing Instance Wire.Proto_ConfigUpdateEnvelope.
#[local] Existing Instance Wire.Proto_SeekInfo.

(** A signer double: the "signature" of a message is the message
    reversed. *)
Definition ctx : IdentityContext :=
  {| Key := unit;
     Identity := Ok [x01; x02];
     PrivateKey := tt;
     Sign := fun object _ => Ok (rev object) |}.

Definition world : World :=
  {| GetRandomNonce := Ok [x09; x08; x07]; Now := 1000 |}.

(** A stream double whose [Send] succeeds. *)
Definition stream : DeliverStreamImpl := {| Stream_Send := fun _ => None |}.

(** Channel "mychannel", TLS certificate hash 0xABCD. *)
Definition conn : DeliverConnection :=
  {| ChannelID := "mychannel";
     TLSCertHash := [xab; xcd];
     Closed := false;
     Stream := StreamDeliver stream; Context := ctx |}.

Definition closed_conn : DeliverConnection :=
  {| ChannelID := "mychannel";
     TLSCertHash := [xab; xcd];
     Closed := true;
     Stream := StreamDeliver stream; Context := ctx |}.

(** Not closed, stream handle nil. *)
Definition nil_stream_conn : DeliverConnection :=
  {| ChannelID := "mychannel";
     TLSCertHash := [xab; xcd];
     Closed := false;
     Stream := StreamNil; Context := ctx |}.

(** Not closed, stream handle of a type that is not a [deliverStream]. *)
Definition other_stream_conn : DeliverConnection :=
  {| ChannelID := "mychannel";
     TLSCertHash := [xab; xcd];
     Closed := false;
     Stream := StreamOther "*grpc.clientStream"; Context := ctx |}.

(** Seek from block 5 to block 10. *)
Definition seek : SeekInfo :=
  {| Start := Some (SeekSpecified 5);
     Stop := Some (SeekSpecified 10);
     Behavior := BLOCK_UNTIL_READY |}.

(** The envelope built for [seek] on [conn]. *)
Definition envelope : Envelope :=
  Eval vm_compute in
    match result (createSignedEnvelope conn world seek) with
    | Ret env => env
    | _ => {| Envelope_Payload := []; Signature := [] |}
    end.

Definition config : bytes := [x11; x12].

(** The config signature built for [config]. *)
Definition configSignature : ConfigSignature :=
  Eval vm_compute in
    match result (CreateConfigSignature ctx world config) with
    | Ret cs => cs
    | _ => {| ConfigSignature_SignatureHeader := [];
              ConfigSignature_Signature := [] |}
    end.

(** A payload serializer that always fails. *)
Definition failing_Proto_Payload : Proto Payload :=
  {| Marshal := fun _ => Err (ErrNew "proto: Marshal called with nil");
     Unmarshal := Unmarshal (Proto := Wire.Proto_Payload) |}.

(** Observations of loop iterations. *)
Definition m1 : DeliverResponse := DeliverResponse_Block [x01].
Definition m2 : DeliverResponse := DeliverResponse_Block [x02].
Definition m3 : DeliverResponse := DeliverResponse_Status 200.

Definition read (m : DeliverResponse) : Observation :=
  {| obs_Stream := StreamDeliver stream;
     obs_in := Some m;
     obs_err := None;
     obs_Closed := false |}.

Definition read_EOF : Observation :=
  {| obs_Stream := StreamDeliver stream;
     obs_in := None;
     obs_err := Some ErrEOF;
     obs_Closed := false |}.

Definition transport_error : error := ErrNew "rpc error: transport is closing".

Definition read_error : Observation :=
  {| obs_Stream := StreamDeliver stream;
     obs_in := None;
     obs_err := Some transport_error;
     obs_Closed := false |}.

(** The read fails and the connection is then found closed. *)
Definition read_error_closed : Observation :=
  {| obs_Stream := StreamDeliver stream;
     obs_in := None;
     obs_err := Some transport_error;
     obs_Closed := true |}.

(** The read returns a message and the connection is then found
    closed. *)
Definition read_closed (m : DeliverResponse) : Observation :=
  {| obs_Stream := StreamDeliver stream;
     obs_in := Some m;
     obs_err := None;
     obs_Closed := true |}.

Definition other_stream : Observation :=
  {| obs_Stream := StreamOther "*grpc.clientStream";
     obs_in := None;
     obs_err := None;
     obs_Closed := false |}.

(** A three-layer config envelope around the payload [01 02 03]. *)
Definition configUpdate : bytes := [x01; x02; x03].

Definition signatures : list ConfigSignature :=
  [{| ConfigSignature_SignatureHeader := [x05];
      ConfigSignature_Signature := [x06] |}].

Definition layer3 : bytes :=
  Wire.marshal_ConfigUpdateEnvelope
    {| ConfigUpdate := configUpdate; Signatures := signatures |}.

Definition layer2 : bytes :=
  Wire.marshal_Payload {| Payload_Header := None; Data := layer3 |}.

Definition layer1 : bytes :=
  Wire.marshal_Envelope {| Envelope_Payload := layer2; Signature := [x07] |}.

(** Bytes that are not a message: a tag with nothing after it. *)
Definition garbage : bytes := [x0a].

(** An envelope whose payload is [garbage]. *)
Definition bad_payload : bytes :=
  Wire.marshal_Envelope {| Envelope_Payload := garbage; Signature := [] |}.

(** An envelope whose payload is well formed and holds [garbage] as its
    data. *)
Definition bad_config_update : bytes :=
  Wire.marshal_Envelope
    {| Envelope_Payload :=
         Wire.marshal_Payload {| Payload_Header := None; Data := garbage |};
       Signature := [] |}.

(** Contexts whose identity is unavailable and whose signer fails, a
    world without entropy, and serializers that fail. *)
Definition no_identity : error := ErrNew "identity not available".
Definition no_entropy : error := ErrNew "entropy source failed".
Definition signer_failure : error := ErrNew "key not found".
Definition write_failure : error := ErrNew "rpc error: stream closed".
Definition marshal_failure : error := ErrNew "proto: Marshal called with nil".
Definition dial_failure : error := ErrNew "connection refused".

Definition ctx_no_identity : IdentityContext :=
  {| Key := unit;
     Identity := Err no_identity;
     PrivateKey := tt;
     Sign := fun object _ => Ok (rev object) |}.

Definition ctx_signer_fails : IdentityContext :=
  {| Key := unit;
     Identity := Ok [x01; x02];
     PrivateKey := tt;
     Sign := fun _ _ => Err signer_failure |}.

Definition world_no_entropy : World :=
  {| GetRandomNonce := Err no_entropy; Now := 1000 |}.

Definition failing_Proto_SeekInfo : Proto SeekInfo :=
  {| Marshal := fun _ => Err marshal_failure;
     Unmarshal := Unmarshal (Proto := Wire.Proto_SeekInfo) |}.

Definition failing_Proto_SignatureHeader : Proto SignatureHeader :=
  {| Marshal := fun _ => Err marshal_failure;
     Unmarshal := Unmarshal (Proto := Wire.Proto_SignatureHeader) |}.

(** An open connection on [stream] with the context [ctx']. *)
Definition conn_with (ctx' : IdentityContext) (s : StreamHandle)
  : DeliverConnection :=
  {| ChannelID := "mychannel";
     TLSCertHash := [xab; xcd];
     Closed := false;
     Stream := s; Context := ctx' |}.

(** A stream double whose [Send] fails. *)
Definition broken_stream : DeliverStreamImpl :=
  {| Stream_Send := fun _ => Some write_failure |}.

(** The stream handle is nil at this iteration. *)
Definition nil_stream : Observation :=
  {| obs_Stream := StreamNil;
     obs_in := None;
     obs_err := None;
     obs_Closed := false |}.

(** A second serialized envelope with the payload of [layer1] and
    another signature. *)
Definition layer1_resigned : bytes :=
  Wire.marshal_Envelope
    {| Envelope_Payload := layer2; Signature := [xff; xfe] |}.

(** Connector doubles: one that dials and stores the stream the opener
    gives, one that fails. *)
Definition client : DeliverClient :=
  {| Client_Deliver := (Some stream, None);
     Client_DeliverFiltered := (Some broken_stream, None) |}.

Definition connector (ctx' : IdentityContext) (channelID : string)
    (open : unit -> StreamHandle * option error) (url : string) (opts : unit)
  : res DeliverConnection :=
  match open tt with
  | (s, None) =>
      Ok {| ChannelID := channelID;
            TLSCertHash := [];
            Closed := false;
            Stream := s; Context := ctx' |}
  | (_, Some e) => Err e
  end.

Definition failing_connector (ctx' : IdentityContext) (channelID : string)
    (open : unit -> StreamHandle * option error) (url : string) (opts : unit)
  : res DeliverConnection :=
  Err dial_failure.

End Fixture.

(** ** Properties *)

Lemma bind_ret A B (a : A) (k : A -> M B) : bind (ret a) k = k a.
Proof. unfold bind, ret. destruct (k a). reflexivity. Qed.

Lemma bind_fail A B (e : error) (k : A -> M B) : bind (fail e) k = fail e.
Proof. reflexivity. Qed.

Lemma bind_panic A B (p : string) (k : A -> M B) : bind (panic p) k = panic p.
Proof. reflexivity. Qed.

Lemma bind_emit B (e : effect) (k : unit -> M B) :
  bind (emit e) k = (result (k tt), e :: log (k tt)).
Proof. unfold bind, emit, result, log. destruct (k tt). reflexivity. Qed.

Lemma try_Ok A (a : A) wrap : try (Ok a) wrap = ret a.
Proof. reflexivity. Qed.

Lemma try_Err A (e : error) wrap : try (@Err A e) wrap = fail (wrap e).
Proof. reflexivity. Qed.

Lemma M_eta A (m : M A) : m = (result m, log m).
Proof. destruct m. reflexivity. Qed.

Create Rewrite HintDb monad.
#[local] Hint Rewrite bind_ret bind_fail bind_panic bind_emit try_Ok try_Err
  : monad.

(** Case analysis on the next collaborator answer that the goal
    inspects. *)
Ltac case_res :=
  match goal with
  | |- context [match ?x with Ok _ => _ | Err _ => _ end] => destruct x eqn:?
  end.

Ltac simp := autorewrite with monad; cbn [result log fst snd].

Section Resource.

Context {Proto_SignatureHeader : Proto SignatureHeader}
        {Proto_Payload : Proto Payload}
        {Proto_Envelope : Proto Envelope}
        {Proto_ConfigUpdateEnvelope : Proto ConfigUpdateEnvelope}.

Lemma ExtractChannelConfig_envelope_error b e :
  Unmarshal (A := Envelope) b = Err e ->
  ExtractChannelConfig b
  = fail (ErrWrap e envelope_layer_message).
Proof. intros H. unfold ExtractChannelConfig. rewrite H. reflexivity. Qed.

Lemma ExtractChannelConfig_payload_error b envelope e :
  Unmarshal b = Ok envelope ->
  Unmarshal (A := Payload) (Envelope_Payload envelope) = Err e ->
  ExtractChannelConfig b
  = fail (ErrWrap e payload_layer_message).
Proof.
  intros H1 H2. unfold ExtractChannelConfig. rewrite H1. simp.
  rewrite H2. reflexivity.
Qed.

Lemma ExtractChannelConfig_config_update_error b envelope payload e :
  Unmarshal b = Ok envelope ->
  Unmarshal (Envelope_Payload envelope) = Ok payload ->
  Unmarshal (A := ConfigUpdateEnvelope) (Data payload) = Err e ->
  ExtractChannelConfig b
  = fail (ErrWrap e config_update_layer_message).
Proof.
  intros H1 H2 H3. unfold ExtractChannelConfig.
  rewrite H1. simp. rewrite H2. simp. rewrite H3. reflexivity.
Qed.

Lemma ExtractChannelConfig_ok b envelope payload cue :
  Unmarshal b = Ok envelope ->
  Unmarshal (Envelope_Payload envelope) = Ok payload ->
  Unmarshal (Data payload) = Ok cue ->
  ExtractChannelConfig b = ret (ConfigUpdate cue).
Proof.
  intros H1 H2 H3. unfold ExtractChannelConfig.
  rewrite H1. simp. rewrite H2. simp. rewrite H3. reflexivity.
Qed.

Lemma append_inj_l (p a b : string) : (p ++ a = p ++ b)%string -> a = b.
Proof.
  induction p as [|c p IH]; cbn; intros H; [exact H|].
  injection H as H. auto.
Qed.

Lemma layer_errors_distinct (e1 e2 e3 : error) :
  Error (ErrWrap e1 envelope_layer_message)
  <> Error (ErrWrap e2 payload_layer_message)
  /\ Error (ErrWrap e1 envelope_layer_message)
     <> Error (ErrWrap e3 config_update_layer_message)
  /\ Error (ErrWrap e2 payload_layer_message)
     <> Error (ErrWrap e3 config_update_layer_message).
Proof.
  repeat split; intros H; cbn in H.
  - apply (append_inj_l "unmarshal ") in H. discriminate H.
  - apply (append_inj_l "unmarshal config ") in H. discriminate H.
  - apply (append_inj_l "unmarshal ") in H. discriminate H.
Qed.

(** C7: a deserialization failure at the envelope, payload or
    config-update-envelope layer makes [ExtractChannelConfig] return,
    without looking at the remaining layers, the failure wrapped with
    the message of that layer and no bytes; the three wrapped errors
    print differently whatever their causes, so the failing layer can be
    told from the error. *)
Theorem ExtractChannelConfig_layer_errors (b : bytes) :
  (forall e,
      Unmarshal (A := Envelope) b = Err e ->
      ExtractChannelConfig b = fail (ErrWrap e envelope_layer_message))
  /\ (forall envelope e,
         Unmarshal b = Ok envelope ->
         Unmarshal (A := Payload) (Envelope_Payload envelope) = Err e ->
         ExtractChannelConfig b = fail (ErrWrap e payload_layer_message))
  /\ (forall envelope payload e,
         Unmarshal b = Ok envelope ->
         Unmarshal (Envelope_Payload envelope) = Ok payload ->
         Unmarshal (A := ConfigUpdateEnvelope) (Data payload) = Err e ->
         ExtractChannelConfig b
         = fail (ErrWrap e config_update_layer_message))
  /\ (forall e1 e2 e3,
         Error (ErrWrap e1 envelope_layer_message)
         <> Error (ErrWrap e2 payload_layer_message)
         /\ Error (ErrWrap e1 envelope_layer_message)
            <> Error (ErrWrap e3 config_update_layer_message)
         /\ Error (ErrWrap e2 payload_layer_message)
            <> Error (ErrWrap e3 config_update_layer_message)).
Proof.
  split; [|split; [|split]].
  - apply ExtractChannelConfig_envelope_error.
  - apply ExtractChannelConfig_payload_error.
  - apply ExtractChannelConfig_config_update_error.
  - apply layer_errors_distinct.
Qed.

(** C8: when a payload [configUpdate] is put in a config-update
    envelope, that envelope is serialized into the data of a payload
    structure, and the payload structure is serialized into an
    envelope which is serialized in turn, [ExtractChannelConfig]
    applied to the resulting bytes returns exactly [configUpdate]
    (deserialization being the inverse of serialization at the three
    values built). *)
Theorem ExtractChannelConfig_roundtrip
    (configUpdate : bytes) (signatures : list ConfigSignature)
    (header : option Header) (signature : bytes) (b3 b2 b1 : bytes) :
  let cue := {| ConfigUpdate := configUpdate; Signatures := signatures |} in
  let payload := {| Payload_Header := header; Data := b3 |} in
  let envelope := {| Envelope_Payload := b2; Signature := signature |} in
  Marshal cue = Ok b3 ->
  Marshal payload = Ok b2 ->
  Marshal envelope = Ok b1 ->
  roundtrips cue -> roundtrips payload -> roundtrips envelope ->
  ExtractChannelConfig b1 = ret configUpdate.
Proof.
  intros cue payload envelope M3 M2 M1 R3 R2 R1.
  apply R3 in M3. apply R2 in M2. apply R1 in M1.
  exact (ExtractChannelConfig_ok b1 _ _ _ M1 M2 M3).
Qed.

(** C10: when all three layers deserialize and the config-update
    envelope carries no config update, [ExtractChannelConfig] succeeds
    with the empty (nil) byte slice; it does not report the absence. *)
Theorem ExtractChannelConfig_absent_config_update
    (b : bytes) (envelope : Envelope) (payload : Payload)
    (cue : ConfigUpdateEnvelope) :
  Unmarshal b = Ok envelope ->
  Unmarshal (Envelope_Payload envelope) = Ok payload ->
  Unmarshal (Data payload) = Ok cue ->
  ConfigUpdate cue = [] ->
  ExtractChannelConfig b = ret [].
Proof.
  intros H1 H2 H3 H4. rewrite <- H4.
  exact (ExtractChannelConfig_ok b _ _ _ H1 H2 H3).
Qed.

End Resource.

Section Connection.

Context {Proto_ChannelHeader : Proto ChannelHeader}
        {Proto_SignatureHeader : Proto SignatureHeader}
        {Proto_Payload : Proto Payload}
        {Proto_Envelope : Proto Envelope}
        {Proto_ConfigUpdateEnvelope : Proto ConfigUpdateEnvelope}
        {Proto_SeekInfo : Proto SeekInfo}.

(** The envelope builder, one collaborator answer at a time. *)
Lemma createSignedEnvelope_eq A (P : Proto A)
    (c : DeliverConnection) (w : World) (msg : A) :
  createSignedEnvelope c w msg
  = match Marshal msg with
    | Err e => fail e
    | Ok data =>
    match Identity (Context c) with
    | Err e => fail e
    | Ok creator =>
    match GetRandomNonce w with
    | Err e => fail e
    | Ok nonce =>
    match Marshal (payloadChannelHeader c w) with
    | Err e => panic (Error e)
    | Ok chBytes =>
    match Marshal {| Creator := creator; Nonce := nonce |} with
    | Err e => panic (Error e)
    | Ok shBytes =>
    match Marshal {| Payload_Header :=
                       Some {| Header_ChannelHeader := chBytes;
                               Header_SignatureHeader := shBytes |};
                     Data := data |} with
    | Err e => panic (Error e)
    | Ok paylBytes =>
    match Sign (Context c) data (PrivateKey (Context c)) with
    | Err e => (Fail e, [ESign data])
    | Ok signature =>
        (Ret {| Envelope_Payload := paylBytes; Signature := signature |},
         [ESign data])
    end end end end end end end.
Proof.
  unfold createSignedEnvelope, MakePayloadHeader, SigningManager_Sign,
    MarshalOrPanic, try.
  fold (payloadChannelHeader c w).
  repeat (case_res; cbn); reflexivity.
Qed.

(** What a successful run of the envelope builder has gone through. *)
Lemma createSignedEnvelope_Ret A (P : Proto A)
    (c : DeliverConnection) (w : World) (msg : A) (env : Envelope) :
  result (createSignedEnvelope c w msg) = Ret env ->
  exists data creator nonce chBytes shBytes,
    Marshal msg = Ok data
    /\ Identity (Context c) = Ok creator
    /\ GetRandomNonce w = Ok nonce
    /\ Marshal (payloadChannelHeader c w) = Ok chBytes
    /\ Marshal {| Creator := creator; Nonce := nonce |} = Ok shBytes
    /\ Marshal {| Payload_Header :=
                    Some {| Header_ChannelHeader := chBytes;
                            Header_SignatureHeader := shBytes |};
                  Data := data |} = Ok (Envelope_Payload env)
    /\ Sign (Context c) data (PrivateKey (Context c)) = Ok (Signature env)
    /\ log (createSignedEnvelope c w msg) = [ESign data].
Proof.
  rewrite createSignedEnvelope_eq.
  repeat (case_res; cbn); try discriminate.
  intros H. injection H as <-. cbn.
  repeat eexists; eassumption.
Qed.

(** Whatever the outcome, the signer is called at most once, and then
    with the serialized message. *)
Lemma createSignedEnvelope_log A (P : Proto A)
    (c : DeliverConnection) (w : World) (msg : A) :
  log (createSignedEnvelope c w msg) = []
  \/ exists data,
      Marshal msg = Ok data
      /\ log (createSignedEnvelope c w msg) = [ESign data].
Proof.
  rewrite createSignedEnvelope_eq.
  repeat (case_res; cbn); auto; right; eexists; split; reflexivity.
Qed.

(** The config signature builder, one collaborator answer at a time. *)
Lemma CreateConfigSignature_eq
    (ctx : IdentityContext) (w : World) (config : bytes) :
  CreateConfigSignature ctx w config
  = match Identity ctx with
    | Err e =>
        fail (ErrWithMessage e "failed to get user context's identity")
    | Ok creator =>
    match GetRandomNonce w with
    | Err e => fail (ErrWithMessage e "nonce creation failed")
    | Ok nonce =>
    match Marshal {| Creator := creator; Nonce := nonce |} with
    | Err e => fail (ErrWrap e "marshal signatureHeader failed")
    | Ok signatureHeaderBytes =>
    match Sign ctx (signatureHeaderBytes ++ config) (PrivateKey ctx) with
    | Err e =>
        (Fail (ErrWithMessage e "signing of channel config failed"),
         [ESign (signatureHeaderBytes ++ config)])
    | Ok signature =>
        (Ret {| ConfigSignature_SignatureHeader := signatureHeaderBytes;
                ConfigSignature_Signature := signature |},
         [ESign (signatureHeaderBytes ++ config)])
    end end end end.
Proof.
  unfold CreateConfigSignature, SigningManager_Sign, ConcatenateBytes, try.
  repeat (case_res; cbn); reflexivity.
Qed.

(** C1: the streaming envelope builder hands the signing manager the
    serialized message and nothing else (in particular not the
    assembled payload), and the signature of the envelope it returns is
    the signer's answer for those bytes; the config signature builder
    hands the signing manager the serialized signature header followed
    by the config bytes, and the signature it returns is the signer's
    answer for that concatenation. *)
Theorem signing_scopes A (P : Proto A)
    (c : DeliverConnection) (w : World) (msg : A)
    (ctx : IdentityContext) (w' : World) (config : bytes) :
  (forall b,
      In b (signed_messages (log (createSignedEnvelope c w msg))) ->
      Marshal msg = Ok b)
  /\ (forall env,
         result (createSignedEnvelope c w msg) = Ret env ->
         exists data,
           Marshal msg = Ok data
           /\ signed_messages (log (createSignedEnvelope c w msg)) = [data]
           /\ Sign (Context c) data (PrivateKey (Context c))
              = Ok (Signature env))
  /\ (forall b,
         In b (signed_messages (log (CreateConfigSignature ctx w' config))) ->
         exists creator nonce signatureHeaderBytes,
           Identity ctx = Ok creator
           /\ GetRandomNonce w' = Ok nonce
           /\ Marshal {| Creator := creator; Nonce := nonce |}
              = Ok signatureHeaderBytes
           /\ b = signatureHeaderBytes ++ config)
  /\ (forall cs,
         result (CreateConfigSignature ctx w' config) = Ret cs ->
         exists creator nonce,
           Identity ctx = Ok creator
           /\ GetRandomNonce w' = Ok nonce
           /\ Marshal {| Creator := creator; Nonce := nonce |}
              = Ok (ConfigSignature_SignatureHeader cs)
           /\ signed_messages (log (CreateConfigSignature ctx w' config))
              = [ConfigSignature_SignatureHeader cs ++ config]
           /\ Sign ctx (ConfigSignature_SignatureHeader cs ++ config)
                   (PrivateKey ctx)
              = Ok (ConfigSignature_Signature cs)).
Proof.
  split; [|split; [|split]].
  - intros b. destruct (createSignedEnvelope_log A P c w msg) as [-> | (d & Hd & ->)].
    + intros [].
    + cbn. intros [<- | []]. exact Hd.
  - intros env H.
    destruct (createSignedEnvelope_Ret A P c w msg env H)
      as (data & _ & _ & _ & _ & Hd & _ & _ & _ & _ & _ & Hs & ->).
    exists data. cbn. auto.
  - intros b. rewrite CreateConfigSignature_eq.
    repeat (case_res; cbn); try (intros []; fail);
      intros [<- | []]; repeat eexists; eassumption.
  - intros cs. rewrite CreateConfigSignature_eq.
    repeat (case_res; cbn); try discriminate.
    intros H. injection H as <-. cbn.
    repeat eexists; eassumption.
Qed.

(** *** The receive loop *)

Lemma Receive_cons (o : Observation) (rest : list Observation) :
  Receive (o :: rest)
  = match obs_Stream o with
    | StreamNil => (Ret Exited, [])
    | StreamOther typeName =>
        (Abort ("invalid DeliverStream type " ++ typeName)%string, [])
    | StreamDeliver _ =>
        if obs_Closed o then (Ret Exited, [EStreamRecv])
        else
          match obs_err o with
          | Some ErrEOF => (Ret Exited, [EStreamRecv])
          | Some err =>
              (Ret Exited, [EStreamRecv; EChanSend (EvDisconnected err)])
          | None =>
              (result (Receive rest),
               EStreamRecv :: EChanSend (EvResponse (obs_in o))
                 :: log (Receive rest))
          end
    end.
Proof.
  cbn [Receive]. unfold deliverStream.
  destruct (obs_Stream o); simp; try reflexivity.
  destruct (obs_Closed o); [reflexivity|].
  destruct (obs_err o) as [[]|]; simp; reflexivity.
Qed.

(** The loop is still running after [pre] exactly when every iteration
    of [pre] forwarded a message; its log is then those reads and
    events. *)
Lemma Receive_Running (pre : list Observation) :
  result (Receive pre) = Ret Running <-> forallb forwards pre = true.
Proof.
  induction pre as [|o pre IH]; [cbn; tauto|].
  rewrite Receive_cons. cbn [forallb]. unfold forwards at 1.
  destruct (obs_Stream o); cbn; try (split; discriminate).
  destruct (obs_Closed o); cbn; try (split; discriminate).
  destruct (obs_err o) as [[]|]; cbn; try (split; discriminate).
  exact IH.
Qed.

Lemma Receive_forwarded (pre : list Observation) :
  forallb forwards pre = true ->
  Receive pre = (Ret Running, forwarded pre).
Proof.
  induction pre as [|o pre IH]; [reflexivity|].
  rewrite Receive_cons. cbn [forallb]. unfold forwards at 1.
  destruct (obs_Stream o); cbn; try discriminate.
  destruct (obs_Closed o); cbn; try discriminate.
  destruct (obs_err o) as [[]|]; cbn; try discriminate.
  intros H. rewrite (IH H). reflexivity.
Qed.

Lemma Receive_app (pre s : list Observation) :
  result (Receive pre) = Ret Running ->
  Receive (pre ++ s)
  = (result (Receive s), log (Receive pre) ++ log (Receive s)).
Proof.
  induction pre as [|o pre IH]; [intros _; apply M_eta|].
  cbn [app]. rewrite !Receive_cons.
  destruct (obs_Stream o); cbn; try discriminate.
  destruct (obs_Closed o); cbn; try discriminate.
  destruct (obs_err o) as [[]|]; cbn; try discriminate.
  intros H. rewrite (IH H). reflexivity.
Qed.

Lemma channel_events_app (l1 l2 : list effect) :
  channel_events (l1 ++ l2) = channel_events l1 ++ channel_events l2.
Proof.
  induction l1 as [|[] l1 IH]; cbn; congruence.
Qed.

Lemma stream_reads_app (l1 l2 : list effect) :
  stream_reads (l1 ++ l2) = stream_reads l1 + stream_reads l2.
Proof.
  induction l1 as [|[] l1 IH]; cbn; congruence.
Qed.

Lemma disconnected_events_app (l1 l2 : list effect) :
  disconnected_events (l1 ++ l2)
  = disconnected_events l1 ++ disconnected_events l2.
Proof.
  induction l1 as [|x l1 IH]; [reflexivity|].
  destruct x as [| | |[]]; cbn; congruence.
Qed.

Lemma channel_events_forwarded (pre : list Observation) :
  channel_events (forwarded pre) = map (fun o => EvResponse (obs_in o)) pre.
Proof.
  unfold forwarded. induction pre as [|o pre IH]; cbn; congruence.
Qed.

Lemma stream_reads_forwarded (pre : list Observation) :
  stream_reads (forwarded pre) = List.length pre.
Proof.
  unfold forwarded. induction pre as [|o pre IH]; cbn; congruence.
Qed.

Lemma disconnected_events_forwarded (pre : list Observation) :
  disconnected_events (forwarded pre) = [].
Proof.
  unfold forwarded. induction pre as [|o pre IH]; cbn; congruence.
Qed.

(** C3: when the loop reaches an iteration whose read returns and
    [c.Closed()] is then observed true, [Receive] returns; that
    iteration performs the read and puts nothing on the event channel,
    whatever the read returned. *)
Theorem Receive_closed_after_read
    (pre : list Observation) (o : Observation) (rest : list Observation) :
  result (Receive pre) = Ret Running ->
  is_deliver (obs_Stream o) = true ->
  obs_Closed o = true ->
  Receive (pre ++ o :: rest) = (Ret Exited, log (Receive pre) ++ [EStreamRecv])
  /\ channel_events (log (Receive (pre ++ o :: rest)))
     = channel_events (log (Receive pre)).
Proof.
  intros Hpre Hs Hc.
  assert (E : Receive (pre ++ o :: rest)
              = (Ret Exited, log (Receive pre) ++ [EStreamRecv])).
  { rewrite Receive_app by exact Hpre. rewrite Receive_cons.
    destruct (obs_Stream o); try discriminate. rewrite Hc. reflexivity. }
  split; [exact E|].
  rewrite E. cbn [log snd]. rewrite channel_events_app. cbn.
  apply app_nil_r.
Qed.

(** C9: when a run of iterations each reads a message successfully and
    is followed by an iteration whose read returns [io.EOF] on a
    connection that is not closed, [Receive] returns, having put on the
    event channel exactly the messages read, in order and unchanged,
    and having read once per message and once more. *)
Theorem Receive_forwards_then_EOF
    (pre : list Observation) (last : Observation) (rest : list Observation) :
  forallb forwards pre = true ->
  is_deliver (obs_Stream last) = true ->
  obs_Closed last = false ->
  obs_err last = Some ErrEOF ->
  result (Receive (pre ++ last :: rest)) = Ret Exited
  /\ channel_events (log (Receive (pre ++ last :: rest)))
     = map (fun o => EvResponse (obs_in o)) pre
  /\ stream_reads (log (Receive (pre ++ last :: rest)))
     = S (List.length pre).
Proof.
  intros Hpre Hs Hc He.
  assert (E : Receive (pre ++ last :: rest)
              = (Ret Exited, forwarded pre ++ [EStreamRecv])).
  { rewrite Receive_app by (apply Receive_Running; exact Hpre).
    rewrite (Receive_forwarded pre Hpre), Receive_cons.
    destruct (obs_Stream last); try discriminate.
    rewrite Hc, He. reflexivity. }
  rewrite E. cbn [result log fst snd].
  rewrite channel_events_app, stream_reads_app,
    channel_events_forwarded, stream_reads_forwarded. cbn.
  rewrite app_nil_r. repeat split. lia.
Qed.

(** An iteration that reports: the loop exits after one read and one
    disconnected event. *)
Lemma Receive_reports
    (pre : list Observation) (o : Observation) (rest : list Observation)
    (e : error) :
  forallb forwards pre = true ->
  reports o e ->
  Receive (pre ++ o :: rest)
  = (Ret Exited,
     forwarded pre ++ [EStreamRecv; EChanSend (EvDisconnected e)]).
Proof.
  intros Hpre (Hs & Hc & He & Hne).
  rewrite Receive_app by (apply Receive_Running; exact Hpre).
  rewrite (Receive_forwarded pre Hpre), Receive_cons.
  destruct (obs_Stream o); try discriminate.
  rewrite Hc, He. destruct e; try reflexivity. contradiction.
Qed.

(** Every run either emits no disconnected event or consists of
    forwarding iterations followed by one that reports. *)
Lemma Receive_disconnected_cases (script : list Observation) :
  disconnected_events (log (Receive script)) = []
  \/ exists pre o rest e,
      script = pre ++ o :: rest
      /\ forallb forwards pre = true
      /\ reports o e.
Proof.
  induction script as [|o script IH]; [left; reflexivity|].
  rewrite Receive_cons.
  destruct (obs_Stream o) eqn:Hs; cbn; auto.
  destruct (obs_Closed o) eqn:Hc; cbn; auto.
  destruct (obs_err o) as [e|] eqn:He.
  - assert (D : e = ErrEOF \/ e <> ErrEOF)
      by (destruct e; auto; right; discriminate).
    destruct D as [-> | Hne]; [left; reflexivity|].
    right. exists [], o, script, e. cbn.
    repeat split; auto. rewrite Hs. reflexivity.
  - cbn. destruct IH as [IH | (pre & o' & rest & e & -> & Hpre & Hr)].
    + left. exact IH.
    + right. exists (o :: pre), o', rest, e. cbn [app forallb].
      split; [reflexivity|]. split; [|exact Hr].
      unfold forwards at 1. rewrite Hs, Hc, He, Hpre. reflexivity.
Qed.

(** C4, as the code has it: a run of [Receive] emits at most one
    disconnected event; it emits one carrying [e] exactly when the loop
    reaches an iteration whose read returns the error [e], other than
    [io.EOF], and [c.Closed()] is then observed false; the event is the
    last thing the run does (no read and no channel send follow it) and
    [Receive] has returned. *)
Theorem Receive_disconnected_event (script : list Observation) :
  (List.length (disconnected_events (log (Receive script))) <= 1)%nat
  /\ (forall e,
         In e (disconnected_events (log (Receive script)))
         <-> exists pre o rest,
             script = pre ++ o :: rest
             /\ result (Receive pre) = Ret Running
             /\ reports o e)
  /\ (forall e,
         In e (disconnected_events (log (Receive script))) ->
         result (Receive script) = Ret Exited
         /\ exists l,
             log (Receive script) = l ++ [EChanSend (EvDisconnected e)]
             /\ disconnected_events l = []).
Proof.
  assert (R : forall pre o rest e,
             script = pre ++ o :: rest ->
             forallb forwards pre = true ->
             reports o e ->
             Receive script
             = (Ret Exited,
                (forwarded pre ++ [EStreamRecv])
                  ++ [EChanSend (EvDisconnected e)])
             /\ disconnected_events (log (Receive script)) = [e]).
  { intros pre o rest e -> Hpre Hr.
    rewrite (Receive_reports pre o rest e Hpre Hr). cbn [log snd].
    rewrite <- app_assoc. split; [reflexivity|].
    rewrite disconnected_events_app, disconnected_events_forwarded.
    reflexivity. }
  destruct (Receive_disconnected_cases script)
    as [E | (pre & o & rest & e & Hscript & Hpre & Hr)].
  - rewrite E. cbn. split; [lia|]. split; [|intros e []].
    intros e. split; [intros []|].
    intros (pre & o & rest & Hscript & Hpre & Hr).
    apply Receive_Running in Hpre.
    destruct (R pre o rest e Hscript Hpre Hr) as [_ E'].
    rewrite E' in E. discriminate E.
  - destruct (R pre o rest e Hscript Hpre Hr) as [E1 E2].
    rewrite E2. cbn. split; [lia|]. split.
    + intros e'. split.
      * intros [<- | []]. exists pre, o, rest.
        repeat split; try apply Hr; auto.
        apply Receive_Running. exact Hpre.
      * intros (pre' & o' & rest' & Hscript' & Hpre' & Hr').
        apply Receive_Running in Hpre'.
        destruct (R pre' o' rest' e' Hscript' Hpre' Hr') as [_ E'].
        rewrite E' in E2. injection E2 as ->. left. reflexivity.
    + intros e' [<- | []]. rewrite E1. cbn [result log fst snd].
      split; [reflexivity|].
      exists (forwarded pre ++ [EStreamRecv]). split; [reflexivity|].
      rewrite disconnected_events_app, disconnected_events_forwarded.
      reflexivity.
Qed.

(** *** Send *)

(** [Send] on a connection that is not closed, in terms of the envelope
    builder and the stream handle. *)
Lemma Send_eq (c : DeliverConnection) (w : World) (seekInfo : SeekInfo) :
  Closed c = false ->
  Send c w seekInfo
  = match createSignedEnvelope c w seekInfo with
    | (Ret env, l) =>
        match Stream c with
        | StreamNil =>
            (Abort "invalid memory address or nil pointer dereference", l)
        | StreamOther typeName =>
            (Abort ("invalid DeliverStream type " ++ typeName)%string, l)
        | StreamDeliver s =>
            (match Stream_Send s env with
             | None => Ret tt
             | Some err => Fail err
             end, l ++ [EStreamSend env])
        end
    | (Fail e, l) => (Fail e, l)
    | (Abort p, l) => (Abort p, l)
    end.
Proof.
  intros H. unfold Send. rewrite H.
  destruct (createSignedEnvelope c w seekInfo) as [[env|e|p] l];
    try reflexivity.
  unfold bind, deliverStream.
  destruct (Stream c) as [|s|t]; cbn; rewrite ?app_nil_r; try reflexivity.
  destruct (Stream_Send s env); reflexivity.
Qed.

(** C5: on a closed connection [Send] returns the error
    "connection is closed" and does nothing else: the signer is not
    called (no envelope is built) and nothing is written to the
    stream. *)
Theorem Send_closed (c : DeliverConnection) (w : World) (seekInfo : SeekInfo) :
  Closed c = true ->
  Send c w seekInfo = fail (ErrNew "connection is closed")
  /\ log (Send c w seekInfo) = []
  /\ signed_messages (log (Send c w seekInfo)) = []
  /\ stream_writes (log (Send c w seekInfo)) = [].
Proof.
  intros H. unfold Send. rewrite H. repeat split.
Qed.

(** C6: the envelope that [Send] writes to the stream of a connection
    that is not closed has a payload that deserializes to a payload
    structure whose data is the serialized seek info and whose channel
    header deserializes to a header of type DELIVER_SEEK_INFO, version
    0, epoch 0, with the channel identifier and the TLS certificate
    hash of the connection (deserialization being the inverse of
    serialization for payload structures and at the channel header
    built); it is the only envelope written. *)
Theorem Send_envelope
    (c : DeliverConnection) (w : World) (seekInfo : SeekInfo)
    (env : Envelope) :
  Closed c = false ->
  In env (stream_writes (log (Send c w seekInfo))) ->
  (forall p : Payload, roundtrips p) ->
  roundtrips (payloadChannelHeader c w) ->
  stream_writes (log (Send c w seekInfo)) = [env]
  /\ exists data payload header channelHeader,
      Marshal seekInfo = Ok data
      /\ Unmarshal (Envelope_Payload env) = Ok payload
      /\ Data payload = data
      /\ Payload_Header payload = Some header
      /\ Unmarshal (Header_ChannelHeader header) = Ok channelHeader
      /\ Type_ channelHeader = HeaderType_value HeaderType_DELIVER_SEEK_INFO
      /\ Version channelHeader = 0%Z
      /\ Epoch channelHeader = 0%Z
      /\ ChannelId channelHeader = ChannelID c
      /\ TlsCertHash channelHeader = TLSCertHash c.
Proof.
  intros Hc Hin RP RC. rewrite (Send_eq c w seekInfo Hc) in *.
  destruct (createSignedEnvelope c w seekInfo) as [[env'|e|p] l] eqn:E.
  - assert (Hret : result (createSignedEnvelope c w seekInfo) = Ret env')
      by (rewrite E; reflexivity).
    destruct (createSignedEnvelope_Ret _ _ c w seekInfo env' Hret)
      as (data & creator & nonce & chBytes & shBytes
          & Hd & _ & _ & Hch & _ & Hp & _ & Hl).
    rewrite E in Hl. cbn in Hl. subst l.
    destruct (Stream c); cbn in Hin |- *; try contradiction.
    destruct Hin as [<- | []]. split; [reflexivity|].
    eexists data, _, _, (payloadChannelHeader c w).
    split; [exact Hd|]. split; [exact (RP _ _ Hp)|].
    cbn. repeat split. exact (RC _ Hch).
  - destruct (createSignedEnvelope_log _ _ c w seekInfo) as [Hl | (d & _ & Hl)];
      rewrite E in Hl; cbn in Hl; subst l; cbn in Hin; contradiction.
  - destruct (createSignedEnvelope_log _ _ c w seekInfo) as [Hl | (d & _ & Hl)];
      rewrite E in Hl; cbn in Hl; subst l; cbn in Hin; contradiction.
Qed.

(** *** Panics *)

Lemma ExtractChannelConfig_no_panic (b : bytes) :
  panics (ExtractChannelConfig b) = false.
Proof.
  unfold ExtractChannelConfig, try.
  repeat (case_res; cbn); reflexivity.
Qed.

Lemma CreateConfigSignature_no_panic
    (ctx : IdentityContext) (w : World) (config : bytes) :
  panics (CreateConfigSignature ctx w config) = false.
Proof.
  rewrite CreateConfigSignature_eq.
  repeat (case_res; cbn); reflexivity.
Qed.

(** The receive loop panics exactly when it reaches an iteration whose
    stream handle fails the type assertion. *)
Lemma Receive_panic_iff (script : list Observation) :
  panics (Receive script) = true
  <-> exists pre o rest typeName,
      script = pre ++ o :: rest
      /\ forallb forwards pre = true
      /\ obs_Stream o = StreamOther typeName.
Proof.
  split.
  - induction script as [|o script IH]; [discriminate|].
    rewrite Receive_cons.
    destruct (obs_Stream o) as [|s|t] eqn:Hs; try discriminate.
    + destruct (obs_Closed o) eqn:Hc; try discriminate.
      destruct (obs_err o) as [[]|] eqn:He; try discriminate.
      unfold panics. cbn [result fst].
      intros H. destruct (IH H) as (pre & o' & rest & t & -> & Hpre & Ho').
      exists (o :: pre), o', rest, t. split; [reflexivity|].
      split; [|exact Ho']. cbn [forallb]. unfold forwards at 1.
      rewrite Hs, Hc, He, Hpre. reflexivity.
    + intros _. exists [], o, script, t. repeat split. exact Hs.
  - intros (pre & o & rest & t & -> & Hpre & Ho).
    rewrite Receive_app by (apply Receive_Running; exact Hpre).
    rewrite Receive_cons, Ho. reflexivity.
Qed.

(** The envelope builder panics exactly when the message, the identity
    and the nonce were obtained and serializing what it built from them
    fails. *)
Lemma createSignedEnvelope_panic_iff A (P : Proto A)
    (c : DeliverConnection) (w : World) (msg : A) :
  panics (createSignedEnvelope c w msg) = true
  <-> exists data creator nonce,
      Marshal msg = Ok data
      /\ Identity (Context c) = Ok creator
      /\ GetRandomNonce w = Ok nonce
      /\ built_serialization_fails c w data creator nonce.
Proof.
  rewrite createSignedEnvelope_eq. unfold built_serialization_fails. split.
  - destruct (Marshal msg) as [data|] eqn:Hd; [|discriminate].
    destruct (Identity (Context c)) as [creator|] eqn:Hi; [|discriminate].
    destruct (GetRandomNonce w) as [nonce|] eqn:Hn; [|discriminate].
    intros Hp. exists data, creator, nonce. repeat split.
    destruct (Marshal (payloadChannelHeader c w)) as [chBytes|e] eqn:Hch;
      [|left; exists e; reflexivity].
    destruct (Marshal {| Creator := creator; Nonce := nonce |})
      as [shBytes|e] eqn:Hsh;
      [|right; left; exists chBytes, e; auto].
    destruct (Marshal
                {| Payload_Header :=
                     Some {| Header_ChannelHeader := chBytes;
                             Header_SignatureHeader := shBytes |};
                   Data := data |}) as [paylBytes|e] eqn:Hpl;
      [|right; right; exists chBytes, shBytes, e; auto].
    destruct (Sign (Context c) data (PrivateKey (Context c)));
      discriminate Hp.
  - intros (data & creator & nonce & -> & -> & ->
            & [(e & ->)
              | [(chBytes & e & -> & ->)
                | (chBytes & shBytes & e & -> & -> & ->)]]);
      reflexivity.
Qed.


End Connection.

(** ** The reference encoding round-trips *)

Module WireLaws.
Import Wire.

Lemma to_N_byte_of_N (n : N) : (n < 256)%N -> Byte.to_N (byte_of_N n) = n.
Proof.
  intros H. unfold byte_of_N.
  destruct (Byte.of_N n) as [b|] eqn:E.
  - apply Byte.to_of_N. exact E.
  - apply Byte.of_N_None_iff in E. lia.
Qed.

Lemma encode_varint_fuel_length (g : nat) (n : N) :
  (1 <= List.length (encode_varint_fuel (S g) n))%nat.
Proof. cbn. destruct (n <? 128)%N; cbn; lia. Qed.

Lemma encode_varint_fuel_S (g : nat) (n : N) :
  encode_varint_fuel (S g) n
  = if (n <? 128)%N then [byte_of_N n]
    else byte_of_N (n mod 128 + 128) :: encode_varint_fuel g (n / 128).
Proof. reflexivity. Qed.

Lemma decode_varint_fuel_cons (f : nat) (shift acc : N) (b : byte)
    (rest : bytes) :
  decode_varint_fuel (S f) shift acc (b :: rest)
  = if (Byte.to_N b <? 128)%N
    then Some ((acc + N.shiftl (Byte.to_N b) shift)%N, rest)
    else decode_varint_fuel f (shift + 7)%N
           (acc + N.shiftl (Byte.to_N b - 128) shift)%N rest.
Proof. reflexivity. Qed.

Lemma decode_encode_varint_fuel (rest : bytes) (g : nat) :
  forall (n : N) (f : nat) (shift acc : N),
    (n < 2 ^ (7 * N.of_nat (S g)))%N ->
    (List.length (encode_varint_fuel (S g) n) <= S f)%nat ->
    decode_varint_fuel (S f) shift acc (encode_varint_fuel (S g) n ++ rest)
    = Some ((acc + n * 2 ^ shift)%N, rest).
Proof.
  induction g as [|g IH]; intros n f shift acc Hn Hf;
    rewrite encode_varint_fuel_S in *;
    destruct (N.ltb_spec n 128) as [Hlt|Hge].
  - cbn [app]. rewrite decode_varint_fuel_cons, to_N_byte_of_N by lia.
    destruct (N.ltb_spec n 128); [|lia].
    rewrite N.shiftl_mul_pow2. reflexivity.
  - change (2 ^ (7 * N.of_nat 1))%N with 128%N in Hn. lia.
  - cbn [app]. rewrite decode_varint_fuel_cons, to_N_byte_of_N by lia.
    destruct (N.ltb_spec n 128); [|lia].
    rewrite N.shiftl_mul_pow2. reflexivity.
  - assert (Hm : (n mod 128 < 128)%N) by (apply N.mod_lt; lia).
    set (d := (n mod 128)%N) in *.
    cbn [app]. rewrite decode_varint_fuel_cons, to_N_byte_of_N by lia.
    destruct (N.ltb_spec (d + 128) 128) as [Hx|_]; [lia|].
    assert (Hd : (n / 128 < 2 ^ (7 * N.of_nat (S g)))%N).
    { apply N.Div0.div_lt_upper_bound.
      replace (128 * 2 ^ (7 * N.of_nat (S g)))%N
        with (2 ^ (7 * N.of_nat (S (S g))))%N; [exact Hn|].
      replace (7 * N.of_nat (S (S g)))%N
        with (7 + 7 * N.of_nat (S g))%N by lia.
      rewrite N.pow_add_r. reflexivity. }
    cbn [List.length] in Hf.
    pose proof (encode_varint_fuel_length g (n / 128)) as Hl.
    destruct f as [|f]; [lia|].
    rewrite IH by (auto; lia).
    f_equal. f_equal.
    rewrite N.shiftl_mul_pow2, N.pow_add_r.
    replace (d + 128 - 128)%N with d by lia.
    pose proof (N.div_mod n 128 ltac:(lia)) as E. fold d in E.
    change (2 ^ 7)%N with 128%N.
    set (q := (n / 128)%N) in *. set (p := (2 ^ shift)%N).
    rewrite E. lia.
Qed.

Lemma encode_varint_nonempty (n : N) : encode_varint n <> [].
Proof.
  unfold encode_varint.
  pose proof (encode_varint_fuel_length (N.to_nat (N.log2 n)) n) as H.
  intros E. rewrite E in H. cbn in H. lia.
Qed.

Lemma decode_encode_varint (n : N) (rest : bytes) :
  decode_varint (encode_varint n ++ rest) = Some (n, rest).
Proof.
  unfold decode_varint, encode_varint.
  set (g := N.to_nat (N.log2 n)).
  pose proof (encode_varint_fuel_length g n) as Hl.
  rewrite length_app.
  destruct (List.length (encode_varint_fuel (S g) n) + List.length rest)%nat
    as [|f] eqn:E; [lia|].
  rewrite decode_encode_varint_fuel.
  - f_equal. f_equal. cbn. lia.
  - destruct (N.eq_dec n 0) as [->|Hn]; [cbn; lia|].
    apply N.lt_le_trans with (2 ^ N.succ (N.log2 n))%N.
    + apply N.log2_spec. lia.
    + apply N.pow_le_mono_r; [lia|]. subst g. lia.
  - lia.
Qed.

Lemma take_app (b rest : bytes) :
  take (List.length b) (b ++ rest) = Some (b, rest).
Proof.
  unfold take. rewrite length_app.
  destruct (Nat.leb_spec (List.length b) (List.length b + List.length rest));
    [|lia].
  f_equal. f_equal.
  - rewrite firstn_app, Nat.sub_diag, firstn_all. cbn. apply app_nil_r.
  - rewrite skipn_app, Nat.sub_diag, skipn_all. reflexivity.
Qed.

Lemma tag_nonempty (field wiretype : N) : tag field wiretype <> [].
Proof. apply encode_varint_nonempty. Qed.

Lemma parse_fields_encode (l : list (N * bytes)) :
  Forall (fun fb => fst fb <> 0%N) l ->
  forall fuel,
    (List.length (encode_fields l) <= fuel)%nat ->
    parse_fields fuel (encode_fields l) = Some (delimited l).
Proof.
  induction 1 as [|[f b] l Hf Hl IH]; intros fuel Hfuel.
  - destruct fuel; reflexivity.
  - cbn [encode_fields flat_map fst snd] in *.
    fold (encode_fields l) in *.
    unfold put_delimited in *. rewrite <- !app_assoc in *.
    pose proof (tag_nonempty f 2) as Ht.
    destruct (tag f 2 ++ encode_varint (len b) ++ b ++ encode_fields l)
      as [|x bs] eqn:E.
    { destruct (tag f 2); [contradiction|discriminate]. }
    destruct fuel as [|fuel].
    { cbn in Hfuel. lia. }
    cbn [parse_fields]. rewrite <- E. unfold tag at 1.
    rewrite decode_encode_varint.
    replace ((f * 8 + 2) / 8)%N with f
      by (rewrite N.div_add_l by lia; cbn; lia).
    replace ((f * 8 + 2) mod 8)%N with 2%N
      by (rewrite N.add_comm, N.Div0.mod_add; reflexivity).
    destruct (N.eqb_spec f 0); [contradiction|].
    cbn [decode_value]. rewrite decode_encode_varint.
    unfold len. rewrite Nat2N.id, take_app.
    rewrite IH.
    + reflexivity.
    + assert (List.length (x :: bs)
              = (List.length (tag f 2)
                 + (List.length (encode_varint (N.of_nat (List.length b)))
                    + (List.length b + List.length (encode_fields l))))%nat)
        by (rewrite <- E, !length_app; reflexivity).
      assert (1 <= List.length (tag f 2))%nat
        by (destruct (tag f 2); [contradiction|cbn; lia]).
      cbn [List.length] in *. lia.
Qed.

Lemma parse_encode (l : list (N * bytes)) :
  Forall (fun fb => fst fb <> 0%N) l ->
  parse (encode_fields l) = Ok (delimited l).
Proof.
  intros H. unfold parse. rewrite parse_fields_encode; auto.
Qed.

Lemma put_bytes_fields (field : N) (b : bytes) :
  put_bytes field b = encode_fields (field_bytes field b).
Proof.
  destruct b; [reflexivity|]. cbn. rewrite app_nil_r. reflexivity.
Qed.

Lemma put_delimited_fields (field : N) (b : bytes) :
  put_delimited field b = encode_fields [(field, b)].
Proof. cbn. rewrite app_nil_r. reflexivity. Qed.

Lemma encode_fields_app (l1 l2 : list (N * bytes)) :
  encode_fields (l1 ++ l2) = encode_fields l1 ++ encode_fields l2.
Proof. apply flat_map_app. Qed.

Lemma field_bytes_ok (field : N) (b : bytes) :
  field <> 0%N -> Forall (fun fb => fst fb <> 0%N) (field_bytes field b).
Proof. intros H. destruct b; cbn; auto. Qed.

Lemma Header_roundtrip (h : Header) :
  unmarshal_with decode_Header (marshal_Header h) = Ok h.
Proof.
  unfold unmarshal_with, marshal_Header.
  rewrite !put_bytes_fields, <- encode_fields_app, parse_encode
    by (apply Forall_app; split; apply field_bytes_ok; discriminate).
  destruct h as [[|c cs] [|s ss]]; reflexivity.
Qed.

Lemma Envelope_roundtrip (e : Envelope) :
  unmarshal_with decode_Envelope (marshal_Envelope e) = Ok e.
Proof.
  unfold unmarshal_with, marshal_Envelope.
  rewrite !put_bytes_fields, <- encode_fields_app, parse_encode
    by (apply Forall_app; split; apply field_bytes_ok; discriminate).
  destruct e as [[|c cs] [|s ss]]; reflexivity.
Qed.

Lemma Payload_roundtrip (p : Payload) :
  unmarshal_with decode_Payload (marshal_Payload p) = Ok p.
Proof.
  unfold unmarshal_with, marshal_Payload.
  destruct p as [[h|] d]; cbn [Payload_Header Data option_map put_message].
  - rewrite put_delimited_fields, put_bytes_fields, <- encode_fields_app, parse_encode
      by (apply Forall_app; split;
          [repeat constructor; discriminate
          |apply field_bytes_ok; discriminate]).
    unfold decode_Payload.
    assert (G : get_message 1
                  (delimited ([(1%N, marshal_Header h)] ++ field_bytes 2 d))
                = Some (marshal_Header h)).
    { destruct d; cbn; rewrite app_nil_r; reflexivity. }
    rewrite G, Header_roundtrip.
    destruct d; reflexivity.
  - rewrite put_bytes_fields. cbn [app].
    rewrite parse_encode by (apply field_bytes_ok; discriminate).
    destruct d; reflexivity.
Qed.

Lemma Proto_Payload_roundtrips (p : Payload) :
  roundtrips (H := Proto_Payload) p.
Proof.
  intros b H. cbn in H. injection H as <-. apply Payload_roundtrip.
Qed.

Lemma Proto_Envelope_roundtrips (e : Envelope) :
  roundtrips (H := Proto_Envelope) e.
Proof.
  intros b H. cbn in H. injection H as <-. apply Envelope_roundtrip.
Qed.

Lemma ConfigSignature_roundtrip (c : ConfigSignature) :
  unmarshal_with decode_ConfigSignature (marshal_ConfigSignature c) = Ok c.
Proof.
  unfold unmarshal_with, marshal_ConfigSignature.
  rewrite !put_bytes_fields, <- encode_fields_app, parse_encode
    by (apply Forall_app; split; apply field_bytes_ok; discriminate).
  destruct c as [[|h hs] [|s ss]]; reflexivity.
Qed.

Lemma flat_map_signature_fields (sigs : list ConfigSignature) :
  flat_map (fun s => put_delimited 2 (marshal_ConfigSignature s)) sigs
  = encode_fields (signature_fields sigs).
Proof.
  induction sigs as [|s sigs IH]; [reflexivity|].
  cbn [flat_map signature_fields map]. rewrite IH. reflexivity.
Qed.

Lemma get_all_signature_fields (sigs : list ConfigSignature) :
  get_all 2 (delimited (signature_fields sigs))
  = map marshal_ConfigSignature sigs.
Proof.
  induction sigs as [|s sigs IH]; [reflexivity|].
  cbn. f_equal. exact IH.
Qed.

Lemma get_delimited_signature_fields (sigs : list ConfigSignature)
    (default : bytes) :
  get_delimited 1 (delimited (signature_fields sigs)) default = default.
Proof.
  induction sigs as [|s sigs IH]; [reflexivity|]. cbn. exact IH.
Qed.

Lemma decode_all_signatures (sigs : list ConfigSignature) :
  decode_all (unmarshal_with decode_ConfigSignature)
             (map marshal_ConfigSignature sigs)
  = Ok sigs.
Proof.
  induction sigs as [|s sigs IH]; [reflexivity|].
  cbn [map decode_all]. rewrite ConfigSignature_roundtrip, IH. reflexivity.
Qed.

Lemma ConfigUpdateEnvelope_roundtrip (c : ConfigUpdateEnvelope) :
  unmarshal_with decode_ConfigUpdateEnvelope (marshal_ConfigUpdateEnvelope c)
  = Ok c.
Proof.
  unfold unmarshal_with, marshal_ConfigUpdateEnvelope.
  rewrite put_bytes_fields, flat_map_signature_fields, <- encode_fields_app.
  rewrite parse_encode.
  - unfold decode_ConfigUpdateEnvelope.
    destruct c as [[|u us] sigs]; cbn [ConfigUpdate Signatures field_bytes app].
    + rewrite get_all_signature_fields, decode_all_signatures,
        get_delimited_signature_fields. reflexivity.
    + cbn [delimited map get_all get_delimited fst snd N.eqb Pos.eqb].
      fold (delimited (signature_fields sigs)).
      rewrite get_all_signature_fields, decode_all_signatures,
        get_delimited_signature_fields. reflexivity.
  - apply Forall_app. split; [apply field_bytes_ok; discriminate|].
    unfold signature_fields. apply Forall_map, Forall_forall.
    intros; discriminate.
Qed.

Lemma Proto_ConfigUpdateEnvelope_roundtrips (c : ConfigUpdateEnvelope) :
  roundtrips (H := Proto_ConfigUpdateEnvelope) c.
Proof.
  intros b H. cbn in H. injection H as <-.
  apply ConfigUpdateEnvelope_roundtrip.
Qed.

(** On the wire format the unwrapper recovers every payload from its
    three-layer wrapping, whatever the header and the signatures. *)
Lemma wire_config_envelope_unwraps
    (configUpdate : bytes) (signatures : list ConfigSignature)
    (header : option Header) (signature : bytes) :
  ExtractChannelConfig
    (Proto_Payload := Proto_Payload) (Proto_Envelope := Proto_Envelope)
    (Proto_ConfigUpdateEnvelope := Proto_ConfigUpdateEnvelope)
    (marshal_Envelope
       {| Envelope_Payload :=
            marshal_Payload
              {| Payload_Header := header;
                 Data := marshal_ConfigUpdateEnvelope
                           {| ConfigUpdate := configUpdate;
                              Signatures := signatures |} |};
          Signature := signature |})
  = ret configUpdate.
Proof.
  eapply (ExtractChannelConfig_ok
            (Proto_Payload := Proto_Payload)
            (Proto_Envelope := Proto_Envelope)
            (Proto_ConfigUpdateEnvelope := Proto_ConfigUpdateEnvelope)
            _ _ _ {| ConfigUpdate := configUpdate;
                     Signatures := signatures |}).
  - apply Envelope_roundtrip.
  - apply Payload_roundtrip.
  - apply ConfigUpdateEnvelope_roundtrip.
Qed.

End WireLaws.

(** ** The properties on the test doubles *)

Section Evaluation.

Import Fixture.

#[local] Existing Instance Wire.Proto_Envelope.
#[local] Existing Instance Wire.Proto_Payload.
#[local] Existing Instance Wire.Proto_SignatureHeader.
#[local] Existing Instance Wire.Proto_ChannelHeader.
#[local] Existing Instance Wire.Proto_ConfigUpdateEnvelope.
#[local] Existing Instance Wire.Proto_SeekInfo.

(** The streaming path signs the twelve bytes of the serialized seek
    info; the config path signs the nine bytes of the signature header
    followed by the two config bytes. *)
Lemma signing_scopes_witness :
  Marshal seek = Ok (Wire.marshal_SeekInfo seek)
  /\ signed_messages (log (createSignedEnvelope conn world seek))
     = [Wire.marshal_SeekInfo seek]
  /\ signed_messages (log (CreateConfigSignature ctx world config))
     = [ConfigSignature_SignatureHeader configSignature ++ config].
Proof.
  destruct (signing_scopes SeekInfo Wire.Proto_SeekInfo conn world seek ctx world
              config)
    as (H1 & H2 & H3 & H4).
  split.
  - apply H1. vm_compute. left. reflexivity.
  - destruct (H2 envelope) as (data & Hd & Hl & _); [vm_compute; reflexivity|].
    destruct (H4 configSignature) as (creator & nonce & _ & _ & _ & Hc & _);
      [vm_compute; reflexivity|].
    vm_compute in Hd. injection Hd as <-.
    split; [exact Hl|exact Hc].
Defined.

Lemma Send_closed_witness :
  Send closed_conn world seek = fail (ErrNew "connection is closed")
  /\ log (Send closed_conn world seek) = []
  /\ signed_messages (log (Send closed_conn world seek)) = []
  /\ stream_writes (log (Send closed_conn world seek)) = [].
Proof. apply (Send_closed closed_conn world seek). reflexivity. Defined.

Lemma Send_envelope_witness :
  stream_writes (log (Send conn world seek)) = [envelope]
  /\ exists data payload header channelHeader,
      Marshal seek = Ok data
      /\ Unmarshal (Envelope_Payload envelope) = Ok payload
      /\ Data payload = data
      /\ Payload_Header payload = Some header
      /\ Unmarshal (Header_ChannelHeader header) = Ok channelHeader
      /\ Type_ channelHeader = 5%Z
      /\ Version channelHeader = 0%Z
      /\ Epoch channelHeader = 0%Z
      /\ ChannelId channelHeader = "mychannel"
      /\ TlsCertHash channelHeader = [xab; xcd].
Proof.
  apply (Send_envelope conn world seek envelope).
  - reflexivity.
  - vm_compute. left. reflexivity.
  - exact WireLaws.Proto_Payload_roundtrips.
  - intros b H. injection H as <-. vm_compute. reflexivity.
Defined.

Lemma Receive_closed_after_read_witness :
  Receive ([read m1] ++ read_closed m2 :: [read m3])
  = (Ret Exited, log (Receive [read m1]) ++ [EStreamRecv])
  /\ channel_events (log (Receive ([read m1] ++ read_closed m2 :: [read m3])))
     = channel_events (log (Receive [read m1])).
Proof.
  apply (Receive_closed_after_read [read m1] (read_closed m2) [read m3]);
    reflexivity.
Defined.

Lemma Receive_forwards_then_EOF_witness :
  result (Receive ([read m1; read m2] ++ read_EOF :: [read m3])) = Ret Exited
  /\ channel_events (log (Receive ([read m1; read m2] ++ read_EOF :: [read m3])))
     = [EvResponse (Some m1); EvResponse (Some m2)]
  /\ stream_reads (log (Receive ([read m1; read m2] ++ read_EOF :: [read m3])))
     = 3%nat.
Proof.
  apply (Receive_forwards_then_EOF [read m1; read m2] read_EOF [read m3]);
    reflexivity.
Defined.

(** On a connection found closed after a failed read, the failure is
    not reported: the claim that a disconnected event is emitted
    whenever a read returns an error other than end-of-stream does not
    hold. *)
Lemma Receive_error_on_closed_connection_not_reported :
  ~ (forall script pre o rest e,
        script = pre ++ o :: rest ->
        result (Receive pre) = Ret Running ->
        is_deliver (obs_Stream o) = true ->
        obs_err o = Some e ->
        e <> ErrEOF ->
        In e (disconnected_events (log (Receive script)))).
Proof.
  intros H.
  exact (H [read m1; read_error_closed] [read m1] read_error_closed []
           transport_error eq_refl eq_refl eq_refl eq_refl
           ltac:(discriminate)).
Qed.

Lemma Receive_disconnected_event_witness :
  In transport_error
     (disconnected_events (log (Receive [read m1; read_error; read m2])))
  /\ result (Receive [read m1; read_error; read m2]) = Ret Exited
  /\ exists l,
      log (Receive [read m1; read_error; read m2])
      = l ++ [EChanSend (EvDisconnected transport_error)]
      /\ disconnected_events l = [].
Proof.
  destruct (Receive_disconnected_event [read m1; read_error; read m2])
    as (_ & H2 & H3).
  assert (Hin : In transport_error
                   (disconnected_events
                      (log (Receive [read m1; read_error; read m2])))).
  { apply H2. exists [read m1], read_error, [read m2].
    split; [reflexivity|]. split; [reflexivity|].
    repeat split; try reflexivity. discriminate. }
  split; [exact Hin|]. apply H3. exact Hin.
Defined.

Lemma ExtractChannelConfig_layer_errors_witness :
  (exists e, ExtractChannelConfig garbage
             = fail (ErrWrap e envelope_layer_message))
  /\ (exists e, ExtractChannelConfig bad_payload
                = fail (ErrWrap e payload_layer_message))
  /\ (exists e, ExtractChannelConfig bad_config_update
                = fail (ErrWrap e config_update_layer_message)).
Proof.
  split; [|split]; eexists.
  - destruct (ExtractChannelConfig_layer_errors garbage) as (H & _).
    apply H. vm_compute. reflexivity.
  - destruct (ExtractChannelConfig_layer_errors bad_payload) as (_ & H & _).
    eapply H; vm_compute; reflexivity.
  - destruct (ExtractChannelConfig_layer_errors bad_config_update)
      as (_ & _ & H & _).
    eapply H; vm_compute; reflexivity.
Defined.

Lemma ExtractChannelConfig_roundtrip_witness :
  ExtractChannelConfig layer1 = ret configUpdate.
Proof.
  apply (ExtractChannelConfig_roundtrip configUpdate signatures None [x07]
           layer3 layer2 layer1); try reflexivity.
  - apply WireLaws.Proto_ConfigUpdateEnvelope_roundtrips.
  - apply WireLaws.Proto_Payload_roundtrips.
  - apply WireLaws.Proto_Envelope_roundtrips.
Defined.

(** The empty byte sequence deserializes at every layer and carries no
    config update. *)
Lemma ExtractChannelConfig_absent_config_update_witness :
  Unmarshal (A := Envelope) [] = Ok {| Envelope_Payload := []; Signature := [] |}
  /\ Unmarshal (A := Payload) [] = Ok {| Payload_Header := None; Data := [] |}
  /\ Unmarshal (A := ConfigUpdateEnvelope) []
     = Ok {| ConfigUpdate := []; Signatures := [] |}
  /\ ExtractChannelConfig [] = ret [].
Proof.
  split; [reflexivity|]. split; [reflexivity|]. split; [reflexivity|].
  apply (ExtractChannelConfig_absent_config_update []
           {| Envelope_Payload := []; Signature := [] |}
           {| Payload_Header := None; Data := [] |}
           {| ConfigUpdate := []; Signatures := [] |});
    reflexivity.
Defined.



End Evaluation.

(** ** Further properties of the connection *)

Section ConnectionFurther.

Context {Proto_ChannelHeader : Proto ChannelHeader}
        {Proto_SignatureHeader : Proto SignatureHeader}
        {Proto_Payload : Proto Payload}
        {Proto_Envelope : Proto Envelope}
        {Proto_ConfigUpdateEnvelope : Proto ConfigUpdateEnvelope}
        {Proto_SeekInfo : Proto SeekInfo}.

(** X1: the envelope builder returns the failure of its first failing
    step unchanged, the steps being tried in the order message
    serialization, identity, nonce, signing; the signer is called only
    when every earlier step succeeded, and a signing failure leaves no
    envelope. *)
Theorem createSignedEnvelope_error_propagation A (P : Proto A)
    (c : DeliverConnection) (w : World) (msg : A) :
  (forall e,
      Marshal msg = Err e ->
      createSignedEnvelope c w msg = fail e)
  /\ (forall data e,
         Marshal msg = Ok data ->
         Identity (Context c) = Err e ->
         createSignedEnvelope c w msg = fail e)
  /\ (forall data creator e,
         Marshal msg = Ok data ->
         Identity (Context c) = Ok creator ->
         GetRandomNonce w = Err e ->
         createSignedEnvelope c w msg = fail e)
  /\ (forall data creator nonce e,
         Marshal msg = Ok data ->
         Identity (Context c) = Ok creator ->
         GetRandomNonce w = Ok nonce ->
         panics (createSignedEnvelope c w msg) = false ->
         Sign (Context c) data (PrivateKey (Context c)) = Err e ->
         createSignedEnvelope c w msg = (Fail e, [ESign data])).
Proof.
  rewrite createSignedEnvelope_eq.
  split; [|split; [|split]].
  - intros e ->. reflexivity.
  - intros data e -> ->. reflexivity.
  - intros data creator e -> -> ->. reflexivity.
  - intros data creator nonce e -> -> -> Hp Hs. rewrite Hs in *.
    repeat (case_res; cbn in * ); try discriminate; reflexivity.
Qed.

(** X2: the config signature builder wraps the failure of each step
    with a message of its own (identity, nonce, header serialization,
    signing); the four wrapped errors print differently whatever their
    causes; and the signer is called only when the three earlier steps
    succeeded. *)
Theorem CreateConfigSignature_errors
    (ctx : IdentityContext) (w : World) (config : bytes) :
  (forall e,
      Identity ctx = Err e ->
      CreateConfigSignature ctx w config
      = fail (ErrWithMessage e "failed to get user context's identity"))
  /\ (forall creator e,
         Identity ctx = Ok creator ->
         GetRandomNonce w = Err e ->
         CreateConfigSignature ctx w config
         = fail (ErrWithMessage e "nonce creation failed"))
  /\ (forall creator nonce e,
         Identity ctx = Ok creator ->
         GetRandomNonce w = Ok nonce ->
         Marshal {| Creator := creator; Nonce := nonce |} = Err e ->
         CreateConfigSignature ctx w config
         = fail (ErrWrap e "marshal signatureHeader failed"))
  /\ (forall creator nonce signatureHeaderBytes e,
         Identity ctx = Ok creator ->
         GetRandomNonce w = Ok nonce ->
         Marshal {| Creator := creator; Nonce := nonce |}
         = Ok signatureHeaderBytes ->
         Sign ctx (signatureHeaderBytes ++ config) (PrivateKey ctx) = Err e ->
         CreateConfigSignature ctx w config
         = (Fail (ErrWithMessage e "signing of channel config failed"),
            [ESign (signatureHeaderBytes ++ config)]))
  /\ (forall e1 e2 e3 e4,
         let identityError :=
           Error (ErrWithMessage e1 "failed to get user context's identity") in
         let nonceError := Error (ErrWithMessage e2 "nonce creation failed") in
         let marshalError :=
           Error (ErrWrap e3 "marshal signatureHeader failed") in
         let signError :=
           Error (ErrWithMessage e4 "signing of channel config failed") in
         identityError <> nonceError
         /\ identityError <> marshalError
         /\ identityError <> signError
         /\ nonceError <> marshalError
         /\ nonceError <> signError
         /\ marshalError <> signError).
Proof.
  rewrite CreateConfigSignature_eq.
  split; [|split; [|split; [|split]]].
  - intros e ->. reflexivity.
  - intros creator e -> ->. reflexivity.
  - intros creator nonce e -> -> ->. reflexivity.
  - intros creator nonce shb e -> -> -> ->. reflexivity.
  - intros e1 e2 e3 e4. cbn. repeat split; discriminate.
Qed.

(** X3: on a connection that is not closed, once the envelope is built
    [Send] writes it to the stream, exactly once and after the signer
    was called, and returns what the stream's [Send] returned: nil, or
    its error unchanged. *)
Theorem Send_writes_built_envelope
    (c : DeliverConnection) (w : World) (seekInfo : SeekInfo)
    (s : DeliverStreamImpl) (env : Envelope) :
  Closed c = false ->
  Stream c = StreamDeliver s ->
  result (createSignedEnvelope c w seekInfo) = Ret env ->
  result (Send c w seekInfo)
  = match Stream_Send s env with
    | None => Ret tt
    | Some err => Fail err
    end
  /\ log (Send c w seekInfo)
     = log (createSignedEnvelope c w seekInfo) ++ [EStreamSend env]
  /\ stream_writes (log (Send c w seekInfo)) = [env].
Proof.
  intros Hc Hs Hr. rewrite (Send_eq c w seekInfo Hc), Hs.
  destruct (createSignedEnvelope_Ret _ _ c w seekInfo env Hr)
    as (data & _ & _ & _ & _ & _ & _ & _ & _ & _ & _ & _ & Hl).
  destruct (createSignedEnvelope c w seekInfo) as [r l].
  cbn in Hr, Hl. subst r l. cbn. repeat split.
Qed.

(** X4: on a connection that is not closed, when the envelope builder
    returns an error [Send] returns that error unchanged and writes
    nothing; the stream handle is not looked at, so a nil or ill-typed
    handle does not matter then. *)
Theorem Send_builder_error
    (c : DeliverConnection) (w : World) (seekInfo : SeekInfo) (e : error) :
  Closed c = false ->
  result (createSignedEnvelope c w seekInfo) = Fail e ->
  result (Send c w seekInfo) = Fail e
  /\ log (Send c w seekInfo) = log (createSignedEnvelope c w seekInfo)
  /\ stream_writes (log (Send c w seekInfo)) = [].
Proof.
  intros Hc Hr. rewrite (Send_eq c w seekInfo Hc).
  destruct (createSignedEnvelope_log _ _ c w seekInfo)
    as [Hl | (d & _ & Hl)];
    destruct (createSignedEnvelope c w seekInfo) as [r l];
    cbn in Hr, Hl; subst r l; repeat split.
Qed.

(** X5: whatever the connection and the collaborators answer, [Send]
    calls the signer at most once, writes to the stream at most once
    and only after the signer was called with the serialized seek info,
    never reads from the stream and puts nothing on an event channel. *)
Theorem Send_effects
    (c : DeliverConnection) (w : World) (seekInfo : SeekInfo) :
  log (Send c w seekInfo) = []
  \/ (exists data,
         Marshal seekInfo = Ok data
         /\ log (Send c w seekInfo) = [ESign data])
  \/ (exists data env,
         Marshal seekInfo = Ok data
         /\ result (createSignedEnvelope c w seekInfo) = Ret env
         /\ log (Send c w seekInfo) = [ESign data; EStreamSend env]).
Proof.
  destruct (Closed c) eqn:Hc.
  - left. unfold Send. rewrite Hc. reflexivity.
  - rewrite (Send_eq c w seekInfo Hc).
    destruct (createSignedEnvelope c w seekInfo) as [[env|e|p] l] eqn:E.
    + assert (Hr : result (createSignedEnvelope c w seekInfo) = Ret env)
        by (rewrite E; reflexivity).
      destruct (createSignedEnvelope_Ret _ _ c w seekInfo env Hr)
        as (data & _ & _ & _ & _ & Hd & _ & _ & _ & _ & _ & _ & Hl).
      rewrite E in Hl. cbn in Hl. subst l.
      destruct (Stream c); cbn;
        [right; left; exists data; auto
        |right; right; exists data, env; auto
        |right; left; exists data; auto].
    + destruct (createSignedEnvelope_log _ _ c w seekInfo)
        as [Hl | (d & Hd & Hl)]; rewrite E in Hl; cbn in Hl; subst l; eauto.
    + destruct (createSignedEnvelope_log _ _ c w seekInfo)
        as [Hl | (d & Hd & Hl)]; rewrite E in Hl; cbn in Hl; subst l; eauto.
Qed.

(** X6: when the loop reaches an iteration at which the stream handle
    is nil, [Receive] returns without reading and without putting
    anything on the event channel. *)
Theorem Receive_nil_stream
    (pre : list Observation) (o : Observation) (rest : list Observation) :
  result (Receive pre) = Ret Running ->
  obs_Stream o = StreamNil ->
  Receive (pre ++ o :: rest) = (Ret Exited, log (Receive pre)).
Proof.
  intros Hpre Hs. rewrite Receive_app by exact Hpre.
  rewrite Receive_cons, Hs. cbn. rewrite app_nil_r. reflexivity.
Qed.

(** X7: when the loop reaches an iteration at which the stream handle
    is not a [deliverStream], [Receive] panics with the message of the
    type assertion, naming the type, before any read of that
    iteration; what was forwarded before stays forwarded. *)
Theorem Receive_ill_typed_stream
    (pre : list Observation) (o : Observation) (rest : list Observation)
    (typeName : string) :
  result (Receive pre) = Ret Running ->
  obs_Stream o = StreamOther typeName ->
  Receive (pre ++ o :: rest)
  = (Abort ("invalid DeliverStream type " ++ typeName)%string,
     log (Receive pre)).
Proof.
  intros Hpre Hs. rewrite Receive_app by exact Hpre.
  rewrite Receive_cons, Hs. cbn. rewrite app_nil_r. reflexivity.
Qed.

(** X8: once [Receive] has returned or panicked, nothing that happens
    afterwards on the connection or the stream changes what it did: no
    further observation is consumed. *)
Theorem Receive_end_is_final (pre s : list Observation) :
  result (Receive pre) <> Ret Running ->
  Receive (pre ++ s) = Receive pre.
Proof.
  induction pre as [|o pre IH]; [intros H; contradiction H; reflexivity|].
  cbn [app]. rewrite !Receive_cons.
  destruct (obs_Stream o); try reflexivity.
  destruct (obs_Closed o); try reflexivity.
  destruct (obs_err o) as [[]|]; try reflexivity.
  cbn [result fst]. intros H. rewrite (IH H). reflexivity.
Qed.

(** X9: in every run, what [Receive] puts on the event channel is the
    messages of all the leading iterations that read successfully on
    an open connection, in order and unchanged, followed by a single
    disconnected event carrying [e] when the iteration after them
    reads the error [e], other than [io.EOF], on a connection not
    closed, and by nothing otherwise. *)
Theorem Receive_events (script : list Observation) :
  script = leading_reads script ++ after_leading_reads script
  /\ (forall o rest e,
         after_leading_reads script = o :: rest ->
         reports o e ->
         channel_events (log (Receive script))
         = map (fun o => EvResponse (obs_in o)) (leading_reads script)
           ++ [EvDisconnected e])
  /\ ((forall o rest e,
          after_leading_reads script = o :: rest -> ~ reports o e) ->
      channel_events (log (Receive script))
      = map (fun o => EvResponse (obs_in o)) (leading_reads script)).
Proof.
  induction script as [|o script (IH1 & IH2 & IH3)].
  - repeat split. intros o rest e H. discriminate H.
  - rewrite Receive_cons. cbn [leading_reads after_leading_reads].
    destruct (forwards o) eqn:Hf.
    + unfold forwards in Hf.
      destruct (obs_Stream o); try discriminate.
      destruct (obs_Closed o); try discriminate.
      destruct (obs_err o); try discriminate.
      cbn [log snd channel_events map app]. split; [|split].
      * f_equal. exact IH1.
      * intros o' rest e Ha Hr. f_equal. exact (IH2 o' rest e Ha Hr).
      * intros Hn. f_equal. exact (IH3 Hn).
    + split; [reflexivity|]. split.
      * intros o' rest e Ha (Hs & Hc & He & Hne). injection Ha as <- <-.
        destruct (obs_Stream o); try discriminate.
        rewrite Hc, He. destruct e; try reflexivity. contradiction.
      * intros Hn.
        destruct (obs_Stream o) eqn:Hs; try reflexivity.
        destruct (obs_Closed o) eqn:Hc; try reflexivity.
        destruct (obs_err o) as [e|] eqn:He.
        -- destruct e; try reflexivity;
             exfalso; eapply (Hn o script); try reflexivity;
             (split; [rewrite Hs; reflexivity|]);
             (split; [exact Hc|]); (split; [exact He|]); discriminate.
        -- unfold forwards in Hf. rewrite Hs, Hc, He in Hf. discriminate.
Qed.

(** X10: [Receive] never calls the signer and never writes to the
    stream; it reads at most once per iteration, and puts at most one
    event on the channel per read. *)
Theorem Receive_effects (script : list Observation) :
  signed_messages (log (Receive script)) = []
  /\ stream_writes (log (Receive script)) = []
  /\ (List.length (channel_events (log (Receive script)))
      <= stream_reads (log (Receive script)))%nat
  /\ (stream_reads (log (Receive script)) <= List.length script)%nat.
Proof.
  induction script as [|o script (IH1 & IH2 & IH3 & IH4)].
  - cbn. repeat split; lia.
  - rewrite Receive_cons.
    destruct (obs_Stream o); try (cbn; repeat split; lia).
    destruct (obs_Closed o); try (cbn; repeat split; lia).
    destruct (obs_err o) as [[]|]; try (cbn; repeat split; lia).
    cbn [log snd signed_messages stream_writes channel_events stream_reads
           List.length].
    repeat split; auto; lia.
Qed.

(** X11: [Receive] is still in its loop after the observations given
    exactly when every one of them was a successful read on an open
    connection; it has then read once per observation and forwarded
    every message read. *)
Theorem Receive_still_running (script : list Observation) :
  (result (Receive script) = Ret Running <-> forallb forwards script = true)
  /\ (result (Receive script) = Ret Running ->
      channel_events (log (Receive script))
      = map (fun o => EvResponse (obs_in o)) script
      /\ stream_reads (log (Receive script)) = List.length script).
Proof.
  split; [apply Receive_Running|].
  intros H. apply Receive_Running in H.
  rewrite (Receive_forwarded script H). cbn [log snd].
  rewrite channel_events_forwarded, stream_reads_forwarded. auto.
Qed.

(** X12: [ExtractChannelConfig] has exactly four kinds of outcome, the
    bytes of the config update or the failure of one of the three
    layers wrapped with that layer's message; it calls no
    collaborator. *)
Theorem ExtractChannelConfig_outcomes (b : bytes) :
  log (ExtractChannelConfig b) = []
  /\ ((exists configUpdate, result (ExtractChannelConfig b) = Ret configUpdate)
      \/ (exists e,
             result (ExtractChannelConfig b)
             = Fail (ErrWrap e envelope_layer_message))
      \/ (exists e,
             result (ExtractChannelConfig b)
             = Fail (ErrWrap e payload_layer_message))
      \/ (exists e,
             result (ExtractChannelConfig b)
             = Fail (ErrWrap e config_update_layer_message))).
Proof.
  unfold ExtractChannelConfig, try.
  repeat (case_res; cbn); split; eauto 6.
Qed.

(** X13: [ExtractChannelConfig] looks at the envelope's payload and at
    the payload's data only: two inputs whose envelopes carry the same
    payload bytes give the same result, whatever their signatures, so
    no signature is verified. *)
Theorem ExtractChannelConfig_ignores_signature
    (b b' : bytes) (envelope envelope' : Envelope) :
  Unmarshal b = Ok envelope ->
  Unmarshal b' = Ok envelope' ->
  Envelope_Payload envelope = Envelope_Payload envelope' ->
  ExtractChannelConfig b = ExtractChannelConfig b'.
Proof.
  intros H H' E. unfold ExtractChannelConfig.
  rewrite H, H'. cbn [try]. rewrite !bind_ret, E. reflexivity.
Qed.

(** X14: the payload of a built envelope carries, in its header, a
    signature header whose creator is the identity of the connection's
    context and whose nonce is the nonce drawn for this call
    (deserialization being the inverse of serialization for payload
    structures and signature headers). *)
Theorem createSignedEnvelope_signature_header A (P : Proto A)
    (c : DeliverConnection) (w : World) (msg : A) (env : Envelope) :
  result (createSignedEnvelope c w msg) = Ret env ->
  (forall p : Payload, roundtrips p) ->
  (forall sh : SignatureHeader, roundtrips sh) ->
  exists payload header creator nonce,
    Unmarshal (Envelope_Payload env) = Ok payload
    /\ Payload_Header payload = Some header
    /\ Unmarshal (Header_SignatureHeader header)
       = Ok {| Creator := creator; Nonce := nonce |}
    /\ Identity (Context c) = Ok creator
    /\ GetRandomNonce w = Ok nonce.
Proof.
  intros Hr RP RS.
  destruct (createSignedEnvelope_Ret A P c w msg env Hr)
    as (data & creator & nonce & chBytes & shBytes
        & _ & Hi & Hn & _ & Hsh & Hp & _ & _).
  eexists _, _, creator, nonce.
  split; [exact (RP _ _ Hp)|]. cbn.
  split; [reflexivity|]. split; [exact (RS _ _ Hsh)|]. auto.
Qed.

End ConnectionFurther.

Section ConstructorFurther.

Context {Proto_ChannelHeader : Proto ChannelHeader}
        {Proto_SignatureHeader : Proto SignatureHeader}
        {Proto_Payload : Proto Payload}
        {Proto_SeekInfo : Proto SeekInfo}.

Variables (ClientConn Opts : Type).
Variable NewDeliverClient : ClientConn -> DeliverClient.
Variable NewConnection :
  IdentityContext -> string ->
  (ClientConn -> StreamHandle * option error) -> string ->
  Opts -> res DeliverConnection.

(** X15: [New] refuses the empty channel identifier with the error
    "channel ID not provided" whatever the connector would answer; for
    any other channel identifier it returns the connector's error
    unchanged, or the connection the connector made for that channel
    identifier, URL and options. *)
Theorem New_result
    (ctx : IdentityContext) (channelID : string)
    (streamProvider : StreamProvider) (url : string) (opts : Opts) :
  (channelID = "" ->
   New NewDeliverClient NewConnection ctx channelID streamProvider url opts
   = fail (ErrNew "channel ID not provided"))
  /\ (channelID <> "" ->
      forall e,
        NewConnection ctx channelID
          (New_stream NewDeliverClient streamProvider) url opts = Err e ->
        New NewDeliverClient NewConnection ctx channelID streamProvider url
            opts
        = fail e)
  /\ (channelID <> "" ->
      forall connect,
        NewConnection ctx channelID
          (New_stream NewDeliverClient streamProvider) url opts
        = Ok connect ->
        New NewDeliverClient NewConnection ctx channelID streamProvider url
            opts
        = ret connect).
Proof.
  unfold New. repeat split.
  - intros ->. reflexivity.
  - intros Hne e He. destruct (String.eqb_spec channelID ""); [contradiction|].
    rewrite He. reflexivity.
  - intros Hne connect Hc.
    destruct (String.eqb_spec channelID ""); [contradiction|].
    rewrite Hc. reflexivity.
Qed.

End ConstructorFurther.

Module WireLawsFurther.
Import Wire WireLaws.

Lemma SignatureHeader_roundtrip (h : SignatureHeader) :
  unmarshal_with decode_SignatureHeader (marshal_SignatureHeader h) = Ok h.
Proof.
  unfold unmarshal_with, marshal_SignatureHeader.
  rewrite !put_bytes_fields, <- encode_fields_app, parse_encode
    by (apply Forall_app; split; apply field_bytes_ok; discriminate).
  destruct h as [[|c cs] [|n ns]]; reflexivity.
Qed.

Lemma Proto_SignatureHeader_roundtrips (h : SignatureHeader) :
  roundtrips (H := Proto_SignatureHeader) h.
Proof.
  intros b H. cbn in H. injection H as <-. apply SignatureHeader_roundtrip.
Qed.

End WireLawsFurther.

(** ** The further properties on the test doubles *)

Section EvaluationFurther.

Import Fixture.

#[local] Existing Instance Wire.Proto_Envelope.
#[local] Existing Instance Wire.Proto_Payload.
#[local] Existing Instance Wire.Proto_SignatureHeader.
#[local] Existing Instance Wire.Proto_ChannelHeader.
#[local] Existing Instance Wire.Proto_ConfigUpdateEnvelope.
#[local] Existing Instance Wire.Proto_SeekInfo.

Lemma createSignedEnvelope_error_propagation_witness :
  createSignedEnvelope (H := failing_Proto_SeekInfo)
    (conn_with ctx_no_identity StreamNil) world_no_entropy seek
  = fail marshal_failure
  /\ createSignedEnvelope (conn_with ctx_no_identity StreamNil)
       world_no_entropy seek
     = fail no_identity
  /\ createSignedEnvelope conn world_no_entropy seek = fail no_entropy
  /\ createSignedEnvelope (conn_with ctx_signer_fails StreamNil) world seek
     = (Fail signer_failure, [ESign (Wire.marshal_SeekInfo seek)]).
Proof.
  split; [|split; [|split]].
  - destruct (createSignedEnvelope_error_propagation SeekInfo
                failing_Proto_SeekInfo (conn_with ctx_no_identity StreamNil)
                world_no_entropy seek) as (H & _).
    apply H. reflexivity.
  - destruct (createSignedEnvelope_error_propagation SeekInfo
                Wire.Proto_SeekInfo (conn_with ctx_no_identity StreamNil)
                world_no_entropy seek) as (_ & H & _).
    apply (H (Wire.marshal_SeekInfo seek)); reflexivity.
  - destruct (createSignedEnvelope_error_propagation SeekInfo
                Wire.Proto_SeekInfo conn world_no_entropy seek)
      as (_ & _ & H & _).
    apply (H (Wire.marshal_SeekInfo seek) [x01; x02]); reflexivity.
  - destruct (createSignedEnvelope_error_propagation SeekInfo
                Wire.Proto_SeekInfo (conn_with ctx_signer_fails StreamNil)
                world seek) as (_ & _ & _ & H).
    apply (H (Wire.marshal_SeekInfo seek) [x01; x02] [x09; x08; x07]);
      reflexivity.
Defined.

Lemma CreateConfigSignature_errors_witness :
  CreateConfigSignature ctx_no_identity world_no_entropy config
  = fail (ErrWithMessage no_identity "failed to get user context's identity")
  /\ CreateConfigSignature ctx world_no_entropy config
     = fail (ErrWithMessage no_entropy "nonce creation failed")
  /\ CreateConfigSignature (Proto_SignatureHeader := failing_Proto_SignatureHeader)
       ctx world config
     = fail (ErrWrap marshal_failure "marshal signatureHeader failed")
  /\ result (CreateConfigSignature ctx_signer_fails world config)
     = Fail (ErrWithMessage signer_failure "signing of channel config failed").
Proof.
  split; [|split; [|split]].
  - destruct (CreateConfigSignature_errors ctx_no_identity world_no_entropy
                config) as (H & _).
    apply H. reflexivity.
  - destruct (CreateConfigSignature_errors ctx world_no_entropy config)
      as (_ & H & _).
    apply (H [x01; x02]); reflexivity.
  - destruct (@CreateConfigSignature_errors failing_Proto_SignatureHeader
                ctx world config) as (_ & _ & H & _).
    apply (H [x01; x02] [x09; x08; x07]); reflexivity.
  - destruct (CreateConfigSignature_errors ctx_signer_fails world config)
      as (_ & _ & _ & H & _).
    rewrite (H [x01; x02] [x09; x08; x07]
               (ConfigSignature_SignatureHeader configSignature)
               signer_failure); reflexivity.
Defined.

Lemma Send_writes_built_envelope_witness :
  result (Send (conn_with ctx (StreamDeliver broken_stream)) world seek)
  = Fail write_failure
  /\ stream_writes
       (log (Send (conn_with ctx (StreamDeliver broken_stream)) world seek))
     = [envelope].
Proof.
  destruct (Send_writes_built_envelope
              (conn_with ctx (StreamDeliver broken_stream)) world seek
              broken_stream envelope) as (H1 & _ & H3);
    try reflexivity.
  split; [exact H1|exact H3].
Defined.

Lemma Send_builder_error_witness :
  result (Send (conn_with ctx_signer_fails StreamNil) world seek)
  = Fail signer_failure
  /\ log (Send (conn_with ctx_signer_fails StreamNil) world seek)
     = log (createSignedEnvelope (conn_with ctx_signer_fails StreamNil)
              world seek)
  /\ stream_writes
       (log (Send (conn_with ctx_signer_fails StreamNil) world seek))
     = [].
Proof.
  apply (Send_builder_error (conn_with ctx_signer_fails StreamNil) world seek
           signer_failure); reflexivity.
Defined.

Lemma Receive_nil_stream_witness :
  Receive ([read m1] ++ nil_stream :: [read m2])
  = (Ret Exited, log (Receive [read m1])).
Proof.
  apply (Receive_nil_stream [read m1] nil_stream [read m2]); reflexivity.
Defined.

Lemma Receive_ill_typed_stream_witness :
  Receive ([read m1] ++ other_stream :: [read m2])
  = (Abort "invalid DeliverStream type *grpc.clientStream",
     log (Receive [read m1])).
Proof.
  apply (Receive_ill_typed_stream [read m1] other_stream [read m2]
           "*grpc.clientStream"); reflexivity.
Defined.

Lemma Receive_end_is_final_witness :
  Receive ([read m1; read_EOF] ++ [read m2; read_error])
  = Receive [read m1; read_EOF].
Proof.
  apply (Receive_end_is_final [read m1; read_EOF] [read m2; read_error]).
  discriminate.
Defined.

Lemma Receive_events_witness :
  channel_events (log (Receive [read m1; read m2; read_error; read m3]))
  = [EvResponse (Some m1); EvResponse (Some m2);
     EvDisconnected transport_error]
  /\ channel_events (log (Receive [read m1; read_EOF; read m2]))
     = [EvResponse (Some m1)].
Proof.
  split.
  - destruct (Receive_events [read m1; read m2; read_error; read m3])
      as (_ & H & _).
    apply (H read_error [read m3] transport_error); [reflexivity|].
    repeat split. discriminate.
  - destruct (Receive_events [read m1; read_EOF; read m2]) as (_ & _ & H).
    apply H. intros o rest e Ha (_ & _ & He & Hne).
    injection Ha as <- _. injection He as <-. apply Hne. reflexivity.
Defined.

Lemma Receive_still_running_witness :
  channel_events (log (Receive [read m1; read m2; read m3]))
  = [EvResponse (Some m1); EvResponse (Some m2); EvResponse (Some m3)]
  /\ stream_reads (log (Receive [read m1; read m2; read m3])) = 3%nat.
Proof.
  destruct (Receive_still_running [read m1; read m2; read m3]) as (H1 & H2).
  apply H2. apply H1. reflexivity.
Defined.

Lemma ExtractChannelConfig_ignores_signature_witness :
  layer1 <> layer1_resigned
  /\ ExtractChannelConfig layer1 = ExtractChannelConfig layer1_resigned.
Proof.
  split; [discriminate|].
  apply (ExtractChannelConfig_ignores_signature layer1 layer1_resigned
           {| Envelope_Payload := layer2; Signature := [x07] |}
           {| Envelope_Payload := layer2; Signature := [xff; xfe] |});
    reflexivity.
Defined.

Lemma createSignedEnvelope_signature_header_witness :
  exists payload header creator nonce,
    Unmarshal (Envelope_Payload envelope) = Ok payload
    /\ Payload_Header payload = Some header
    /\ Unmarshal (Header_SignatureHeader header)
       = Ok {| Creator := creator; Nonce := nonce |}
    /\ Identity (Context conn) = Ok creator
    /\ GetRandomNonce world = Ok nonce.
Proof.
  apply (createSignedEnvelope_signature_header SeekInfo Wire.Proto_SeekInfo
           conn world seek envelope).
  - reflexivity.
  - exact WireLaws.Proto_Payload_roundtrips.
  - exact WireLawsFurther.Proto_SignatureHeader_roundtrips.
Defined.

Lemma New_result_witness :
  New (fun _ : unit => client) connector ctx "" Deliver "peer0:7051" tt
  = fail (ErrNew "channel ID not provided")
  /\ New (fun _ : unit => client) failing_connector ctx "mychannel" Deliver
       "peer0:7051" tt
     = fail dial_failure
  /\ New (fun _ : unit => client) connector ctx "mychannel" Deliver
       "peer0:7051" tt
     = ret {| ChannelID := "mychannel";
              TLSCertHash := [];
              Closed := false;
              Stream := StreamDeliver stream; Context := ctx |}.
Proof.
  split; [|split].
  - destruct (New_result unit unit (fun _ => client) connector ctx ""
                Deliver "peer0:7051" tt) as (H & _).
    apply H. reflexivity.
  - destruct (New_result unit unit (fun _ => client) failing_connector ctx
                "mychannel" Deliver "peer0:7051" tt) as (_ & H & _).
    apply H; [discriminate|reflexivity].
  - destruct (New_result unit unit (fun _ => client) connector ctx
                "mychannel" Deliver "peer0:7051" tt) as (_ & _ & H).
    apply H; [discriminate|reflexivity].
Defined.

End EvaluationFurther.
